(** * Juggler: the netcat listener and its connection manager

    A shallow embedding of [Juggler.py]: the class [NetcatListener] (one
    [nc -l -p port] child process with its two capture queues) and the class
    [ConnectionManager] (the dict of listeners by port and the selected
    port), followed by the properties of the session registry.

    Conventions of the embedding.
    - A Python [str] is a [string]; its characters are code points below 256.
    - A Python [dict] is an association list in insertion order, which is the
      order [keys()] iterates in.
    - Every method is a computation over the object it is called on: it
      returns a value or raises, leaves the object in a new state, and emits
      the events it performed on the outside world (lines printed, calls on
      the child process, sleeps), in order.
    - What the outside world decides is an argument of the method that meets
      it: the outcome of [subprocess.Popen] for [start], whether the child
      process still reads its standard input for [send_data], the lines the
      capture threads enqueue during [time.sleep] for [send_command]. *)

From Stdlib Require Import ZArith List String Ascii Bool Lia DecimalString.
Import ListNotations.

Local Open Scope string_scope.
Local Open Scope Z_scope.

(** ** Python strings *)

Module Str.

(** [str(n)] and [{n}] in an f-string, for an [int]. *)
Definition of_int (n : Z) : string := NilZero.string_of_int (Z.to_int n).

(** [c.isspace()] for a code point below 256: the ASCII white space, the
    four information separators, NEL and the no-break space. *)
Definition isspace (c : ascii) : bool :=
  let n := Z.of_N (N_of_ascii c) in
  ((9 <=? n) && (n <=? 13)) || ((28 <=? n) && (n <=? 32))
  || (n =? 133) || (n =? 160).

(** [s.lstrip()] *)
Fixpoint lstrip (s : string) : string :=
  match s with
  | EmptyString => EmptyString
  | String c s' => if isspace c then lstrip s' else s
  end.

(** [s.rstrip()] *)
Fixpoint rstrip (s : string) : string :=
  match s with
  | EmptyString => EmptyString
  | String c s' =>
      match rstrip s' with
      | EmptyString => if isspace c then EmptyString else String c EmptyString
      | r => String c r
      end
  end.

(** [s.strip()]: white space is removed at both ends. *)
Definition strip (s : string) : string := rstrip (lstrip s).

(** The line feed, ['\n']. *)
Definition nl : string := String (ascii_of_N 10) EmptyString.

End Str.

(** ** Events and computations *)

Inductive stream := Stdout | Stderr.

(** A handle on a child process, as [subprocess.Popen] returns it. *)
Record Popen := { pid : Z }.

Inductive event :=
| Print (f : stream) (line : string)      (* print(line, file=f) *)
| Spawn (argv : list string)              (* subprocess.Popen(argv, ...) *)
| ThreadStart (target : stream) (port : Z)(* threading.Thread(...).start() *)
| StdinWrite (p : Popen) (data : string)  (* p.stdin.write(data) *)
| StdinFlush (p : Popen)                  (* p.stdin.flush() *)
| Terminate (p : Popen)                   (* p.terminate() *)
| Wait (p : Popen)                        (* p.wait() *)
| Sleep (ms : Z).                         (* time.sleep(ms / 1000) *)

Inductive exn :=
| RuntimeError (msg : string)
| KeyError (key : Z)
| BrokenPipeError.

Inductive res (A : Type) :=
| Ok (a : A)
| Raise (e : exn).
Arguments Ok {A} a.
Arguments Raise {A} e.

(** A method of an object of state [S]: the result, the state it leaves and
    the events it emitted. *)
Definition M (S A : Type) : Type := S -> res A * S * list event.

Definition ret {S A} (a : A) : M S A := fun s => (Ok a, s, []).

Definition bind {S A B} (m : M S A) (f : A -> M S B) : M S B :=
  fun s =>
    match m s with
    | (Ok a, s1, ev1) => let '(r, s2, ev2) := f a s1 in (r, s2, (ev1 ++ ev2)%list)
    | (Raise e, s1, ev1) => (Raise e, s1, ev1)
    end.

Definition raise {S A} (e : exn) : M S A := fun s => (Raise e, s, []).
Definition get {S} : M S S := fun s => (Ok s, s, []).
Definition modify {S} (f : S -> S) : M S unit := fun s => (Ok tt, f s, []).
Definition emit {S} (e : event) : M S unit := fun s => (Ok tt, s, [e]).

(** [print(line)] and [print(line, file=sys.stderr)] *)
Definition print {S} (line : string) : M S unit := emit (Print Stdout line).
Definition eprint {S} (line : string) : M S unit := emit (Print Stderr line).

Declare Scope py_scope.
Delimit Scope py_scope with py.
Notation "x <- m ;; k" := (bind m (fun x => k))
  (at level 61, m at next level, right associativity) : py_scope.
Notation "m ;; k" := (bind m (fun _ => k))
  (at level 61, right associativity) : py_scope.
Local Open Scope py_scope.

(** The three components of a finished computation. *)
Definition result {S A} (o : res A * S * list event) : res A := fst (fst o).
Definition state {S A} (o : res A * S * list event) : S := snd (fst o).
Definition events {S A} (o : res A * S * list event) : list event := snd o.

(** ** class NetcatListener *)

Record NetcatListener := {
  port : Z;
  process : option Popen;
  stdout_queue : list string;
  stderr_queue : list string;
  running : bool
}.

Definition set_process (p : option Popen) (l : NetcatListener) :=
  {| port := port l; process := p; stdout_queue := stdout_queue l;
     stderr_queue := stderr_queue l; running := running l |}.
Definition set_stdout_queue (q : list string) (l : NetcatListener) :=
  {| port := port l; process := process l; stdout_queue := q;
     stderr_queue := stderr_queue l; running := running l |}.
Definition set_stderr_queue (q : list string) (l : NetcatListener) :=
  {| port := port l; process := process l; stdout_queue := stdout_queue l;
     stderr_queue := q; running := running l |}.
Definition set_running (b : bool) (l : NetcatListener) :=
  {| port := port l; process := process l; stdout_queue := stdout_queue l;
     stderr_queue := stderr_queue l; running := b |}.

Module Listener.

(** [NetcatListener.__init__] *)
Definition init (port : Z) : NetcatListener :=
  {| port := port; process := None; stdout_queue := []; stderr_queue := [];
     running := true |}.

(** What [subprocess.Popen] does when [start] calls it: a child process, a
    [FileNotFoundError] (no [nc] binary), or another exception, with its
    message. *)
Inductive spawn :=
| Spawned (p : Popen)
| NotFound
| Failed (msg : string).

(** [NetcatListener.start] *)
Definition start (os : spawn) : M NetcatListener unit :=
  l <- get ;;
  print ("Starting netcat listener on port " ++ Str.of_int (port l) ++ "...") ;;
  emit (Spawn ["nc"; "-l"; "-p"; Str.of_int (port l)]) ;;
  match os with
  | Spawned p =>
      modify (set_process (Some p)) ;;
      print ("Netcat listener started on port " ++ Str.of_int (port l)
             ++ " with PID " ++ Str.of_int (pid p)) ;;
      emit (ThreadStart Stdout (port l)) ;;
      emit (ThreadStart Stderr (port l))
  | NotFound =>
      eprint "Netcat (nc) is not installed. Please install it and try again."
  | Failed msg =>
      eprint ("Error starting netcat: " ++ msg)
  end.

(** One turn of the loop of [_read_stdout] that read a line: the capture
    thread, which exists once the process does, puts a non-empty [output] on
    the queue.  The flag [running] is tested before the read, so the line of
    a read under way may still be put after [stop] cleared the flag. *)
Definition read_stdout (output : string) (l : NetcatListener) : NetcatListener :=
  match process l, output with
  | None, _ => l
  | Some _, EmptyString => l
  | Some _, _ => set_stdout_queue (stdout_queue l ++ [output])%list l
  end.

(** The same turn of [_read_stderr]. *)
Definition read_stderr (error : string) (l : NetcatListener) : NetcatListener :=
  match process l, error with
  | None, _ => l
  | Some _, EmptyString => l
  | Some _, _ => set_stderr_queue (stderr_queue l ++ [error])%list l
  end.

(** [NetcatListener.stop] *)
Definition stop : M NetcatListener unit :=
  l <- get ;;
  match process l with
  | Some p =>
      print ("Stopping netcat listener on port " ++ Str.of_int (port l) ++ "...") ;;
      modify (set_running false) ;;
      emit (Terminate p) ;;
      emit (Wait p) ;;
      print ("Netcat listener stopped on port " ++ Str.of_int (port l) ++ ".")
  | None =>
      print ("Netcat listener on port " ++ Str.of_int (port l) ++ " is not running.")
  end.

(** What a write on the standard input of the child process meets: a child
    that reads it, or a child that has exited, whose end of the pipe is
    closed. *)
Inductive pipe :=
| Reading
| Exited.

(** [NetcatListener.send_data].  The stream is line buffered, so the write of
    a text that ends in a line feed reaches the pipe at once: if the child
    has exited, [write] raises [BrokenPipeError] and [flush] is not
    reached. *)
Definition send_data (w : pipe) (data : string) : M NetcatListener unit :=
  l <- get ;;
  match process l with
  | Some p =>
      match w with
      | Reading =>
          emit (StdinWrite p (data ++ Str.nl)) ;;
          emit (StdinFlush p)
      | Exited => raise BrokenPipeError
      end
  | None => ret tt
  end.

(** The loop of [receive_data]: while the queue is not empty, the next
    line is taken from it and appended to [output]. *)
Fixpoint drain (q : list string) (output : string) : string * list string :=
  match q with
  | [] => (output, [])
  | line :: q' => drain q' (output ++ line)
  end.

(** [NetcatListener.receive_data] *)
Definition receive_data : M NetcatListener string :=
  l <- get ;;
  let '(output, q) := drain (stdout_queue l) "" in
  modify (set_stdout_queue q) ;;
  ret (Str.strip output).

End Listener.


(** ** Python dicts keyed by port *)

Module Dict.
Section Dict.
Context {V : Type}.

(** The entries, oldest first. *)
Definition t : Type := list (Z * V).

(** [d.get(k)]; [d[k]] where it is [Some]. *)
Fixpoint get (k : Z) (d : t) : option V :=
  match d with
  | [] => None
  | (k', v) :: d' => if k =? k' then Some v else get k d'
  end.

(** [k in d] *)
Definition mem (k : Z) (d : t) : bool :=
  match get k d with Some _ => true | None => false end.

(** [d[k] = v]: a key that is present keeps its place, a new key goes
    last. *)
Fixpoint set (k : Z) (v : V) (d : t) : t :=
  match d with
  | [] => [(k, v)]
  | (k', v') :: d' => if k =? k' then (k', v) :: d' else (k', v') :: set k v d'
  end.

(** The entries of [d] after [del d[k]], for a key that is present. *)
Fixpoint del (k : Z) (d : t) : t :=
  match d with
  | [] => []
  | (k', v') :: d' => if k =? k' then d' else (k', v') :: del k d'
  end.

(** [list(d.keys())] *)
Definition keys (d : t) : list Z := map fst d.

(** [len(d)] *)
Definition len (d : t) : nat := List.length d.

End Dict.
Arguments t V : clear implicits.
End Dict.

(** ** class ConnectionManager *)

Record ConnectionManager := {
  connections : Dict.t NetcatListener;
  selected_port : option Z
}.

Definition set_connections (d : Dict.t NetcatListener) (s : ConnectionManager) :=
  {| connections := d; selected_port := selected_port s |}.
Definition set_selected_port (p : option Z) (s : ConnectionManager) :=
  {| connections := connections s; selected_port := p |}.

Module Manager.
Import Listener.

(** [ConnectionManager.__init__] *)
Definition init : ConnectionManager :=
  {| connections := []; selected_port := None |}.

(** A method run on a listener that no dict holds yet; the listener it
    leaves is returned with the result. *)
Definition on_object {A} (l : NetcatListener) (m : M NetcatListener A)
  : M ConnectionManager (A * NetcatListener) :=
  fun s =>
    match m l with
    | (Ok a, l', ev) => (Ok (a, l'), s, ev)
    | (Raise e, _, ev) => (Raise e, s, ev)
    end.

(** [self.connections[port].m(...)]: the subscript raises [KeyError] for a
    missing key; the method changes the listener the dict holds. *)
Definition call {A} (port : Z) (m : M NetcatListener A) : M ConnectionManager A :=
  fun s =>
    match Dict.get port (connections s) with
    | None => (Raise (KeyError port), s, [])
    | Some l =>
        let '(r, l', ev) := m l in
        (r, set_connections (Dict.set port l' (connections s)) s, ev)
    end.

(** [ConnectionManager.add_connection] *)
Definition add_connection (os : spawn) (port : Z) : M ConnectionManager unit :=
  s <- get ;;
  if negb (Dict.mem port (connections s)) then
    started <- on_object (Listener.init port) (start os) ;;
    let listener := snd started in
    modify (fun s => set_connections (Dict.set port listener (connections s)) s)
  else
    print ("Connection on port " ++ Str.of_int port ++ " already exists.").

(** [del self.connections[port]]: [KeyError] for a missing key. *)
Definition del_item (port : Z) : M ConnectionManager unit :=
  s <- get ;;
  if Dict.mem port (connections s) then
    modify (set_connections (Dict.del port (connections s)))
  else
    raise (KeyError port).

(** [ConnectionManager.remove_connection] *)
Definition remove_connection (port : Z) : M ConnectionManager unit :=
  s <- get ;;
  if Dict.mem port (connections s) then
    call port stop ;;
    del_item port
  else
    print ("No connection on port " ++ Str.of_int port ++ " to remove.").

(** [ConnectionManager.list_connections] *)
Definition list_connections : M ConnectionManager (list Z) :=
  s <- get ;;
  ret (Dict.keys (connections s)).

(** [ConnectionManager.select_connection] *)
Definition select_connection (port : Z) : M ConnectionManager unit :=
  s <- get ;;
  if Dict.mem port (connections s) then
    modify (set_selected_port (Some port)) ;;
    print ("Selected connection on port " ++ Str.of_int port ++ ".")
  else
    print ("No connection on port " ++ Str.of_int port ++ ".").

(** A line that a capture thread reads and enqueues: the port of its
    listener, the stream it reads and the line. *)
Definition arrival : Type := Z * stream * string.

(** The capture thread of [a] runs one turn of its loop, if the dict holds
    its listener. *)
Definition capture (a : arrival) (s : ConnectionManager) : ConnectionManager :=
  let '(port, f, line) := a in
  match Dict.get port (connections s) with
  | None => s
  | Some l =>
      let l' := match f with
                | Stdout => read_stdout line l
                | Stderr => read_stderr line l
                end in
      set_connections (Dict.set port l' (connections s)) s
  end.

(** The capture threads enqueue the lines [bg], in the order they arrive. *)
Definition captures (bg : list arrival) (s : ConnectionManager) : ConnectionManager :=
  fold_left (fun s a => capture a s) bg s.

(** [time.sleep(ms / 1000)]: the calling thread waits, and the capture
    threads enqueue the lines [bg] that arrive in the meantime. *)
Definition sleep (ms : Z) (bg : list arrival) : M ConnectionManager unit :=
  emit (Sleep ms) ;;
  modify (captures bg).

(** [self.selected_port in self.connections]: [None] is no key of the
    dict. *)
Definition selected_in_connections (s : ConnectionManager) : option Z :=
  match selected_port s with
  | Some p => if Dict.mem p (connections s) then Some p else None
  | None => None
  end.

(** [ConnectionManager.send_command], with what its write meets, [w], and
    the lines [bg] that arrive during its sleep of half a second. *)
Definition send_command (w : pipe) (bg : list arrival) (command : string)
  : M ConnectionManager (option string) :=
  s <- get ;;
  match selected_in_connections s with
  | Some p =>
      call p (send_data w command) ;;
      sleep 500 bg ;;
      response <- call p receive_data ;;
      ret (Some response)
  | None =>
      print "No connection selected." ;;
      ret None
  end.

(** The loop of [stop_all], [for port in self.connections.keys()], over the
    live dict.  Each step of the iterator first compares the length of the
    dict with the length [di_used] it had when the loop began, and raises
    [RuntimeError] if they differ; else it yields the next key.  The body
    only ever deletes, so as long as no step has raised the dict is the one
    the loop began with and the keys still to come are [todo]. *)
Fixpoint stop_all_loop (di_used : nat) (todo : list Z) : M ConnectionManager unit :=
  s <- get ;;
  if negb (Dict.len (connections s) =? di_used)%nat then
    raise (RuntimeError "dictionary changed size during iteration")
  else
    match todo with
    | [] => ret tt
    | port :: todo' =>
        remove_connection port ;;
        stop_all_loop di_used todo'
    end.

(** [ConnectionManager.stop_all] *)
Definition stop_all : M ConnectionManager unit :=
  s <- get ;;
  stop_all_loop (Dict.len (connections s)) (Dict.keys (connections s)).

(** The head of the main loop: the output of the selected connection, if
    any, is shown before the prompt.  [if manager.selected_port:] holds for
    a port other than [0]. *)
Definition show_selected : M ConnectionManager unit :=
  s <- get ;;
  match selected_port s with
  | Some p =>
      if p =? 0 then ret tt
      else
        response <- call p receive_data ;;
        match response with
        | EmptyString => ret tt
        | _ => print (Str.nl ++ "Received from port " ++ Str.of_int p ++ ":"
                      ++ Str.nl ++ response)
        end
  | None => ret tt
  end.

(** The operations on a manager: its methods, the head of the main loop,
    and a capture thread enqueueing a line. *)
Inductive op :=
| Add (os : spawn) (port : Z)
| Remove (port : Z)
| ListConnections
| Select (port : Z)
| SendCommand (w : pipe) (bg : list arrival) (command : string)
| StopAll
| ShowSelected
| Capture (a : arrival).

(** The manager an operation leaves, whether it returned or raised. *)
Definition exec (o : op) (s : ConnectionManager) : ConnectionManager :=
  match o with
  | Add os port => state (add_connection os port s)
  | Remove port => state (remove_connection port s)
  | ListConnections => state (list_connections s)
  | Select port => state (select_connection port s)
  | SendCommand w bg command => state (send_command w bg command s)
  | StopAll => state (stop_all s)
  | ShowSelected => state (show_selected s)
  | Capture a => capture a s
  end.

Definition execs (os : list op) (s : ConnectionManager) : ConnectionManager :=
  fold_left (fun s o => exec o s) os s.

(** The managers the program can be in. *)
Inductive reachable : ConnectionManager -> Prop :=
| reachable_init : reachable init
| reachable_exec s o : reachable s -> reachable (exec o s).

End Manager.

(** ** What the specification says [receive] returns

    The lines on the stdout queue joined, with trailing white space trimmed;
    set apart from [Listener.receive_data] to be compared with it. *)

Module Spec.
Definition receive (l : NetcatListener) : string :=
  Str.rstrip (String.concat "" (stdout_queue l)).
End Spec.

(** ** More of Python's strings: [startswith], [split], [int], [repr] *)

Module Py.

(** [s.startswith(prefix)] *)
Definition startswith (prefix s : string) : bool := String.prefix prefix s.

(** [s.split()]: the words of [s], the maximal runs of characters that are
    not white space, in order.  A character that is not white space begins a
    word of its own when white space or the end follows it, and else goes in
    front of the first word of the rest. *)
Fixpoint split (s : string) : list string :=
  match s with
  | EmptyString => []
  | String c s' =>
      if Str.isspace c then split s'
      else
        match s' with
        | EmptyString => [String c EmptyString]
        | String c' _ =>
            if Str.isspace c' then String c EmptyString :: split s'
            else
              match split s' with
              | w :: ws => String c w :: ws
              | [] => [String c EmptyString]
              end
        end
  end.

(** The first word of a string that begins with it, and what follows it. *)
Fixpoint word (s : string) : string :=
  match s with
  | EmptyString => EmptyString
  | String c s' => if Str.isspace c then EmptyString else String c (word s')
  end.

Fixpoint after_word (s : string) : string :=
  match s with
  | EmptyString => EmptyString
  | String c s' => if Str.isspace c then s else after_word s'
  end.

(** [s.split(maxsplit=1)]: the first word, and the rest of [s] from its next
    word on, to the end of [s], if there is one. *)
Definition split1 (s : string) : list string :=
  match Str.lstrip s with
  | EmptyString => []
  | s1 =>
      match Str.lstrip (after_word s1) with
      | EmptyString => [word s1]
      | rest => [word s1; rest]
      end
  end.

(** The value of a decimal digit. *)
Definition digit (c : ascii) : option Z :=
  let n := Z.of_N (N_of_ascii c) in
  if (48 <=? n) && (n <=? 57) then Some (n - 48) else None.

(** The digits of an [int] literal, read from the left with the value [acc]
    of those read so far: one underscore may stand between two digits, and
    the literal ends with a digit.  [after_digit] tells that the last
    character read was a digit. *)
Fixpoint digits (s : string) (acc : Z) (after_digit : bool) : option Z :=
  match s with
  | EmptyString => if after_digit then Some acc else None
  | String c s' =>
      match digit c with
      | Some d => digits s' (10 * acc + d) true
      | None =>
          if Ascii.eqb c "_" && after_digit then digits s' acc false else None
      end
  end.

(** The value of a literal: an optional sign and the digits. *)
Definition literal (s : string) : option Z :=
  match s with
  | String "+" s' => digits s' 0 false
  | String "-" s' => option_map Z.opp (digits s' 0 false)
  | _ => digits s 0 false
  end.

(** The most digits that [int] accepts in a literal,
    [sys.int_info.default_max_str_digits]. *)
Definition max_str_digits : nat := 4300.

(** The number of digits of a string. *)
Fixpoint count_digits (s : string) : nat :=
  match s with
  | EmptyString => 0
  | String c s' =>
      match digit c with
      | Some _ => S (count_digits s')
      | None => count_digits s'
      end
  end.

(** A literal of more digits than [int] accepts. *)
Definition too_long (s : string) : bool :=
  (max_str_digits <? count_digits s)%nat.

(** [int(s)] for a string without white space; [None] where [int] raises
    [ValueError]: for what is no literal, and for a literal of more than
    [max_str_digits] digits. *)
Definition int (s : string) : option Z :=
  if too_long s then None else literal s.

(** [repr(ns)] and [str(ns)] for a list of [int]. *)
Definition repr_list (ns : list Z) : string :=
  "[" ++ String.concat ", " (map Str.of_int ns) ++ "]".

(** [f"{x}"] for a string or [None]. *)
Definition format_opt (x : option string) : string :=
  match x with Some s => s | None => "None" end.

(** [f"{n}"] for an [int] or [None]. *)
Definition format_opt_int (n : option Z) : string :=
  match n with Some n => Str.of_int n | None => "None" end.

End Py.

(** ** The main program *)

Module Main.
Import Listener Manager.

(** The escape character and the colours. *)
Definition esc : string := String (ascii_of_N 27) EmptyString.
Definition COLOR_RESET : string := esc ++ "[0m".
Definition COLOR_YELLOW : string := esc ++ "[33m".
Definition COLOR_RED : string := esc ++ "[31m".
Definition COLOR_GREEN : string := esc ++ "[32m".

(** What the main program can raise: an exception of the manager, or one of
    its own. *)
Inductive error :=
| Raised (e : exn)
| ValueError
| EOFError
| KeyboardInterrupt.

(** What the main program does on the outside world: the events of the
    manager, and the prompt that [input] writes. *)
Inductive io :=
| Out (e : event)
| Prompt (text : string).

(** A piece of the main program, over the manager it holds. *)
Definition P (A : Type) : Type :=
  ConnectionManager -> (A + error) * ConnectionManager * list io.

Definition pure {A} (a : A) : P A := fun s => (inl a, s, []).

Definition andthen {A B} (m : P A) (f : A -> P B) : P B :=
  fun s =>
    match m s with
    | (inl a, s1, tr1) => let '(r, s2, tr2) := f a s1 in (r, s2, (tr1 ++ tr2)%list)
    | (inr e, s1, tr1) => (inr e, s1, tr1)
    end.

Definition throw {A} (e : error) : P A := fun s => (inr e, s, []).

(** A method of the manager, called by the main program. *)
Definition lift {A} (m : M ConnectionManager A) : P A :=
  fun s =>
    match m s with
    | (Ok a, s1, ev) => (inl a, s1, map Out ev)
    | (Raise e, s1, ev) => (inr (Raised e), s1, map Out ev)
    end.

(** [print(line)] *)
Definition say (line : string) : P unit := lift (print line).

(** [input(text)] writes [text] before it reads. *)
Definition prompt (text : string) : P unit := fun s => (inl tt, s, [Prompt text]).

Declare Scope main_scope.
Delimit Scope main_scope with main.
Notation "x <- m ;; k" := (andthen m (fun x => k))
  (at level 61, m at next level, right associativity) : main_scope.
Notation "m ;; k" := (andthen m (fun _ => k))
  (at level 61, right associativity) : main_scope.
Local Open Scope main_scope.

(** [print_help] *)
Definition print_help : P unit :=
  say (COLOR_YELLOW ++ Str.nl ++ "Available commands:") ;;
  say "1. add <port> - Add a new netcat listener on the specified port." ;;
  say "2. remove <port> - Remove the netcat listener on the specified port." ;;
  say "3. list - List all active connections." ;;
  say "4. select <port> - Select a connection to interact with." ;;
  say "5. send <command> - Send a command to the selected connection." ;;
  say "6. stop - Stop all connections and exit." ;;
  say ("7. help - Display this help message." ++ COLOR_RESET).

(** [a, b = words]: [ValueError] unless there are two words. *)
Definition unpack2 (words : list string) : P (string * string) :=
  match words with
  | [a; b] => pure (a, b)
  | _ => throw ValueError
  end.

(** [int(w)] *)
Definition to_int (w : string) : P Z :=
  match Py.int w with
  | Some n => pure n
  | None => throw ValueError
  end.

(** What the outside world does during one turn of the main loop: what
    [input] returns or raises, the lines the capture threads enqueue while
    it waits, the outcome of the spawn if the command adds a listener, and,
    if the command sends, what the write meets and the lines enqueued during
    the sleep. *)
Inductive typing :=
| Line (text : string)
| EOF
| Interrupt.

Record turn := {
  typed : typing;
  arrived : list arrival;
  os : spawn;
  stdin : pipe;
  bg : list arrival
}.

Inductive control := Continue | Break.

(** The branches of the main loop on the command read. *)
Definition dispatch (t : turn) (command : string) : P control :=
  if Py.startswith "add " command then
    ws <- unpack2 (Py.split command) ;;
    port <- to_int (snd ws) ;;
    lift (add_connection (os t) port) ;;
    pure Continue
  else if Py.startswith "remove " command then
    ws <- unpack2 (Py.split command) ;;
    port <- to_int (snd ws) ;;
    lift (remove_connection port) ;;
    pure Continue
  else if String.eqb command "list" then
    conns <- lift list_connections ;;
    match conns with
    | [] => say "No active connections."
    | _ => say ("Active connections: " ++ Py.repr_list conns)
    end ;;
    pure Continue
  else if Py.startswith "select " command then
    ws <- unpack2 (Py.split command) ;;
    port <- to_int (snd ws) ;;
    lift (select_connection port) ;;
    pure Continue
  else if Py.startswith "send " command then
    s <- lift get ;;
    match selected_port s with
    | Some _ =>
        ws <- unpack2 (Py.split1 command) ;;
        let cmd := snd ws in
        response <- lift (send_command (stdin t) (bg t) cmd) ;;
        s1 <- lift get ;;
        say ("Sent to port " ++ Py.format_opt_int (selected_port s1) ++ ":"
             ++ Str.nl ++ cmd) ;;
        s2 <- lift get ;;
        say ("Received from port " ++ Py.format_opt_int (selected_port s2) ++ ":"
             ++ Str.nl ++ Py.format_opt response)
    | None =>
        say "No connection selected. Use 'select <port>' to select a connection."
    end ;;
    pure Continue
  else if String.eqb command "stop" then
    lift stop_all ;;
    pure Break
  else if String.eqb command "help" then
    print_help ;;
    pure Continue
  else
    say "Unknown command. Please try again." ;;
    pure Continue.

(** What the main loop does before it reads a command: it shows the output
    of the selected connection, and its port. *)
Definition before_prompt : P unit :=
  lift show_selected ;;
  s <- lift get ;;
  match selected_port s with
  | Some p =>
      if p =? 0 then pure tt
      else say (COLOR_RED ++ Str.nl ++ "[Port " ++ Str.of_int p ++ "]" ++ COLOR_RESET)
  | None => pure tt
  end.

(** How a run over the turns given ends: the loop was left with [break] (and
    the program, past its [finally] clause, ran to its end), or [input] is
    still waiting after the last of them. *)
Inductive status := Done | Waiting.

(** [while True: ...] *)
Fixpoint loop (turns : list turn) : P status :=
  before_prompt ;;
  prompt (COLOR_GREEN ++ "Enter command: " ++ COLOR_RESET) ;;
  match turns with
  | [] => pure Waiting
  | t :: turns' =>
      lift (modify (captures (arrived t))) ;;
      match typed t with
      | EOF => throw EOFError
      | Interrupt => throw KeyboardInterrupt
      | Line text =>
          c <- dispatch t (Str.strip text) ;;
          match c with
          | Continue => loop turns'
          | Break => pure Done
          end
      end
  end.

(** The [finally] clause: [stop_all] is called; what it raises replaces the
    outcome [r] of the [try] block. *)
Definition finally {A} (r : A + error) : P A :=
  lift stop_all ;;
  match r with
  | inl a => pure a
  | inr e => throw e
  end.

(** The [try] block of the program, from [manager = ConnectionManager()]
    on. *)
Definition body (turns : list turn) : (status + error) * ConnectionManager * list io :=
  (print_help ;; loop turns) Manager.init.

(** The program: the [try] block, the handler of [KeyboardInterrupt] and the
    [finally] clause.  A run that is still waiting for input has left
    neither. *)
Definition main (turns : list turn) : (status + error) * ConnectionManager * list io :=
  match body turns with
  | (inl Waiting, s, tr) => (inl Waiting, s, tr)
  | (inl Done, s, tr) =>
      let '(r, s', tr') := finally (inl Done) s in (r, s', (tr ++ tr')%list)
  | (inr KeyboardInterrupt, s, tr) =>
      let '(r, s', tr') :=
        (say (Str.nl ++ "Interrupt received, stopping all connections...") ;;
         finally (inl Done)) s in
      (r, s', (tr ++ tr')%list)
  | (inr e, s, tr) =>
      let '(r, s', tr') := finally (inr e) s in (r, s', (tr ++ tr')%list)
  end.

(** The three components of a run. *)
Definition outcome {A} (o : (A + error) * ConnectionManager * list io) : A + error :=
  fst (fst o).
Definition manager {A} (o : (A + error) * ConnectionManager * list io) : ConnectionManager :=
  snd (fst o).
Definition trace {A} (o : (A + error) * ConnectionManager * list io) : list io :=
  snd o.

(** A turn after which the loop reads no more: [input] raises, or the
    command read is [stop]. *)
Definition ends_loop (t : turn) : bool :=
  match typed t with
  | Line text => String.eqb (Str.strip text) "stop"
  | EOF => true
  | Interrupt => true
  end.

End Main.

(** ** Notions for the statements *)

(** The capture thread of the standard output enqueues [lines], one turn of
    its loop for each. *)
Definition read_lines (lines : list string) (l : NetcatListener) : NetcatListener :=
  fold_left (fun l line => Listener.read_stdout line l) lines l.

(** The lines of [bg] that the capture thread of the standard output of port
    [p] reads. *)
Fixpoint stdout_lines_of (p : Z) (bg : list Manager.arrival) : list string :=
  match bg with
  | [] => []
  | (q, Stdout, line) :: bg' =>
      if q =? p then line :: stdout_lines_of p bg' else stdout_lines_of p bg'
  | (_, Stderr, _) :: bg' => stdout_lines_of p bg'
  end.

(** A string of white space only. *)
Fixpoint all_space (s : string) : bool :=
  match s with
  | EmptyString => true
  | String c s' => Str.isspace c && all_space s'
  end.

(** What holds of every listener a reachable manager holds under the key
    [k]. *)
Definition listener_ok (k : Z) (l : NetcatListener) : Prop :=
  port l = k
  /\ running l = true
  /\ (process l = None -> stdout_queue l = [] /\ stderr_queue l = []).

Definition entries_ok (d : Dict.t NetcatListener) : Prop :=
  Forall (fun kl => listener_ok (fst kl) (snd kl)) d.



(** What the commands [add], [remove] and [select] do with what follows the
    verb, [m] being the method of the manager they call: the method is
    called, and the loop goes on, if one word follows and [int] accepts it;
    else [ValueError] is raised before the manager is touched. *)
Definition with_port (rest : string) (s : ConnectionManager)
    (m : Z -> M ConnectionManager unit)
  : (Main.control + Main.error) * ConnectionManager * list Main.io :=
  match Py.split rest with
  | [w] =>
      match Py.int w with
      | Some n => (inl Main.Continue, state (m n s), map Main.Out (events (m n s)))
      | None => (inr Main.ValueError, s, [])
      end
  | _ => (inr Main.ValueError, s, [])
  end.

(** ** The reports of the program, named

    The events that [stop] emits on its two branches, and the spawns that
    count as failed, for the statements below. *)

Definition not_running_report (l : NetcatListener) : event :=
  Print Stdout ("Netcat listener on port " ++ Str.of_int (port l) ++ " is not running.").

Definition stopping_events (l : NetcatListener) (p : Popen) : list event :=
  [ Print Stdout ("Stopping netcat listener on port " ++ Str.of_int (port l) ++ "...");
    Terminate p;
    Wait p;
    Print Stdout ("Netcat listener stopped on port " ++ Str.of_int (port l) ++ ".") ].

Definition spawn_failed (os : Listener.spawn) : bool :=
  match os with Listener.Spawned _ => false | _ => true end.

(** What [start] reports on the error stream when the spawn failed. *)
Definition spawn_failure_report (os : Listener.spawn) : list event :=
  match os with
  | Listener.Spawned _ => []
  | Listener.NotFound =>
      [Print Stderr "Netcat (nc) is not installed. Please install it and try again."]
  | Listener.Failed msg => [Print Stderr ("Error starting netcat: " ++ msg)]
  end.

Definition duplicate_report (port : Z) : event :=
  Print Stdout ("Connection on port " ++ Str.of_int port ++ " already exists.").

Definition unknown_report (port : Z) : event :=
  Print Stdout ("No connection on port " ++ Str.of_int port ++ ".").

Definition no_selection_report : event :=
  Print Stdout "No connection selected.".

(** The outcome of [receive_data] as [send_command] returns it: the
    response becomes [Some response]. *)
Definition option_map_ok {S} (o : res string * S * list event)
  : res (option string) * S * list event :=
  match o with
  | (Ok response, s, ev) => (Ok (Some response), s, ev)
  | (Raise e, s, ev) => (Raise e, s, ev)
  end.

(** * Properties *)

(** ** Strings *)

Lemma append_empty_r (s : string) : s ++ "" = s.
Proof. induction s as [|c s IH]; simpl; [reflexivity | now rewrite IH]. Qed.

Lemma append_assoc (s1 s2 s3 : string) : (s1 ++ s2) ++ s3 = s1 ++ s2 ++ s3.
Proof. induction s1 as [|c s1 IH]; simpl; [reflexivity | now rewrite IH]. Qed.

Example strip_both_ends :
  Str.strip ("  hi " ++ Str.nl) = "hi" /\ Str.rstrip ("  hi " ++ Str.nl) = "  hi"
  /\ Str.of_int 9000 = "9000" /\ Str.of_int 0 = "0" /\ Str.of_int (-7) = "-7".
Proof. repeat split; reflexivity. Qed.

(** ["".join(x :: xs)] *)
Lemma concat_cons (x : string) (xs : list string) :
  String.concat "" (x :: xs) = x ++ String.concat "" xs.
Proof. destruct xs; simpl; [now rewrite append_empty_r | reflexivity]. Qed.

(** ** Dicts *)

Section DictFacts.
Context {V : Type}.
Implicit Types (d : Dict.t V) (k : Z) (v : V).

Lemma mem_In k d : Dict.mem k d = true <-> In k (Dict.keys d).
Proof.
  unfold Dict.mem. induction d as [|[k' v'] d IH]; simpl.
  - split; [discriminate | tauto].
  - destruct (Z.eqb_spec k k') as [->|Hk].
    + split; auto.
    + rewrite IH. split; [auto | intros [E|H]; [congruence | exact H]].
Qed.

Lemma not_mem_In k d : Dict.mem k d = false <-> ~ In k (Dict.keys d).
Proof.
  rewrite <- mem_In. destruct (Dict.mem k d); split; congruence.
Qed.

Lemma get_mem k d v : Dict.get k d = Some v -> Dict.mem k d = true.
Proof. unfold Dict.mem. now intros ->. Qed.

Lemma mem_get k d : Dict.mem k d = true -> exists v, Dict.get k d = Some v.
Proof. unfold Dict.mem. destruct (Dict.get k d) as [v|]; [eauto | discriminate]. Qed.

Lemma keys_set k v d :
  Dict.keys (Dict.set k v d)
  = if Dict.mem k d then Dict.keys d else (Dict.keys d ++ [k])%list.
Proof.
  unfold Dict.mem. induction d as [|[k' v'] d IH]; simpl; [reflexivity|].
  destruct (Z.eqb_spec k k') as [->|Hk]; simpl; [reflexivity|].
  rewrite IH. now destruct (Dict.get k d).
Qed.

Lemma set_new k v d : Dict.mem k d = false -> Dict.set k v d = (d ++ [(k, v)])%list.
Proof.
  unfold Dict.mem. induction d as [|[k' v'] d IH]; simpl; [reflexivity|].
  destruct (Z.eqb_spec k k') as [->|Hk]; [discriminate|].
  intros H. now rewrite IH.
Qed.

Lemma set_get_same k v d : Dict.get k d = Some v -> Dict.set k v d = d.
Proof.
  induction d as [|[k' v'] d IH]; simpl; [discriminate|].
  destruct (Z.eqb_spec k k') as [->|Hk].
  - now intros [= ->].
  - intros H. now rewrite IH.
Qed.

Lemma get_set k k' v d :
  Dict.get k' (Dict.set k v d) = if k' =? k then Some v else Dict.get k' d.
Proof.
  induction d as [|[k0 v0] d IH]; simpl; [reflexivity|].
  destruct (Z.eqb_spec k k0) as [->|Hk]; simpl.
  - now destruct (k' =? k0).
  - rewrite IH. destruct (Z.eqb_spec k' k0) as [->|Hk'];
      [destruct (Z.eqb_spec k0 k); congruence | reflexivity].
Qed.

Lemma del_set k v d : Dict.del k (Dict.set k v d) = Dict.del k d.
Proof.
  induction d as [|[k' v'] d IH]; simpl.
  - now rewrite Z.eqb_refl.
  - destruct (Z.eqb_spec k k') as [->|Hk]; simpl.
    + now rewrite Z.eqb_refl.
    + destruct (Z.eqb_spec k k'); [congruence | now rewrite IH].
Qed.

Lemma keys_del_incl k k' d : In k' (Dict.keys (Dict.del k d)) -> In k' (Dict.keys d).
Proof.
  induction d as [|[k0 v0] d IH]; simpl; [tauto|].
  destruct (k =? k0); simpl; tauto.
Qed.

Lemma NoDup_keys_del k d : NoDup (Dict.keys d) -> NoDup (Dict.keys (Dict.del k d)).
Proof.
  induction d as [|[k0 v0] d IH]; simpl; [auto|].
  intros H. inversion H as [|? ? Hn Hd]; subst.
  destruct (k =? k0); simpl; [exact Hd|].
  constructor; [|auto]. intros Hin. apply Hn. eapply keys_del_incl, Hin.
Qed.

Lemma mem_del k d : NoDup (Dict.keys d) -> Dict.mem k (Dict.del k d) = false.
Proof.
  intros H. apply not_mem_In. revert H.
  induction d as [|[k0 v0] d IH]; simpl; [auto|].
  intros H. inversion H as [|? ? Hn Hd]; subst.
  destruct (Z.eqb_spec k k0) as [->|Hk]; simpl; [exact Hn|].
  intros [E|Hin]; [congruence | now apply IH].
Qed.

Lemma NoDup_keys_set k v d : NoDup (Dict.keys d) -> NoDup (Dict.keys (Dict.set k v d)).
Proof.
  intros H. rewrite keys_set. destruct (Dict.mem k d) eqn:E; [exact H|].
  apply NoDup_app; [exact H | repeat constructor; simpl; tauto |].
  intros a Ha [<-|[]]. now apply not_mem_In in E.
Qed.

End DictFacts.

(** ** The listener *)

Section ListenerFacts.
Import Listener.
Implicit Types (l : NetcatListener) (p : Popen).

Lemma stop_unset l :
  process l = None -> stop l = (Ok tt, l, [not_running_report l]).
Proof. intros H. unfold stop, bind, get. simpl. now rewrite H. Qed.

Lemma stop_set l p :
  process l = Some p -> stop l = (Ok tt, set_running false l, stopping_events l p).
Proof. intros H. unfold stop, bind, get. simpl. now rewrite H. Qed.

Lemma send_data_unset w l data :
  process l = None -> send_data w data l = (Ok tt, l, []).
Proof. intros H. unfold send_data, bind, get. simpl. now rewrite H. Qed.

Lemma send_data_set l p data :
  process l = Some p ->
  send_data Reading data l = (Ok tt, l, [StdinWrite p (data ++ Str.nl); StdinFlush p]).
Proof. intros H. unfold send_data, bind, get. simpl. now rewrite H. Qed.

Lemma send_data_exited l p data :
  process l = Some p ->
  send_data Exited data l = (Raise BrokenPipeError, l, []).
Proof. intros H. unfold send_data, bind, get. simpl. now rewrite H. Qed.

Lemma send_data_state w l data : state (send_data w data l) = l.
Proof.
  destruct (process l) as [p|] eqn:E; [|now rewrite send_data_unset].
  destruct w; [now rewrite (send_data_set l p) | now rewrite (send_data_exited l p)].
Qed.

(** [send_data] returns, or raises [BrokenPipeError] having done nothing. *)
Lemma send_data_cases w l data :
  result (send_data w data l) = Ok tt
  \/ send_data w data l = (Raise BrokenPipeError, l, []).
Proof.
  destruct (process l) as [p|] eqn:E; [|left; now rewrite send_data_unset].
  destruct w; [left; now rewrite (send_data_set l p) | right; now apply (send_data_exited l p)].
Qed.

(** The loop of [receive_data] empties the queue and appends its lines, in
    order, to what was collected so far. *)
Lemma drain_concat (q : list string) (output : string) :
  drain q output = (output ++ String.concat "" q, []).
Proof.
  revert output. induction q as [|line q IH]; intros output.
  - simpl. now rewrite append_empty_r.
  - cbn [drain]. now rewrite IH, concat_cons, append_assoc.
Qed.

Lemma receive_data_eq l :
  receive_data l
  = (Ok (Str.strip (String.concat "" (stdout_queue l))), set_stdout_queue [] l, []).
Proof. unfold receive_data, bind, get. simpl. now rewrite drain_concat. Qed.

Lemma start_failed port os :
  spawn_failed os = true ->
  result (start os (init port)) = Ok tt /\ state (start os (init port)) = init port.
Proof. destruct os; [discriminate | now split | now split]. Qed.

End ListenerFacts.

(** C4, as the code has it.  [receive_data] never waits and touches nothing
    outside the listener (it emits no event); it joins the lines queued on the
    stdout queue in their order, removes white space at BOTH ends of the
    joined text and returns it, leaving the queue empty.  Called again with
    nothing enqueued in between, or on an empty queue, it returns the empty
    string. *)
Theorem receive_data_drains (l : NetcatListener) :
  Listener.receive_data l
  = (Ok (Str.strip (String.concat "" (stdout_queue l))), set_stdout_queue [] l, [])
  /\ stdout_queue (state (Listener.receive_data l)) = []
  /\ result (Listener.receive_data (state (Listener.receive_data l))) = Ok ""
  /\ result (Listener.receive_data (set_stdout_queue [] l)) = Ok "".
Proof.
  rewrite !receive_data_eq. repeat split.
Qed.

(** C4, as the specification words it, fails on a line that begins with white
    space: a listener on port 9000 whose capture thread has enqueued the one
    line ["  hi\n"] returns ["hi"], where trimming at the end only would
    return ["  hi"]. *)
Lemma receive_data_trims_leading :
  let started := state (Listener.start (Listener.Spawned {| pid := 41 |}) (Listener.init 9000)) in
  let l := Listener.read_stdout ("  hi" ++ Str.nl) started in
  stdout_queue l = ["  hi" ++ Str.nl]
  /\ result (Listener.receive_data l) = Ok "hi"
  /\ Spec.receive l = "  hi"
  /\ result (Listener.receive_data l) <> Ok (Spec.receive l).
Proof. repeat split. discriminate. Qed.



(** ** The manager: what each method computes *)

Section ManagerFacts.
Import Listener Manager.
Implicit Types (s : ConnectionManager) (p : Z) (l : NetcatListener).

Lemma stop_result l : result (stop l) = Ok tt.
Proof.
  destruct (process l) as [pr|] eqn:E;
    [rewrite (stop_set l pr E) | rewrite (stop_unset l E)]; reflexivity.
Qed.

Lemma set_connections_same s : set_connections (connections s) s = s.
Proof. now destruct s. Qed.

Lemma add_connection_new os p s :
  Dict.mem p (connections s) = false ->
  add_connection os p s
  = (Ok tt,
     set_connections (connections s ++ [(p, state (start os (Listener.init p)))])%list s,
     events (start os (Listener.init p))).
Proof.
  intros H. unfold add_connection, bind, get, on_object, modify. simpl. rewrite H.
  destruct os; simpl; now rewrite (set_new _ _ _ H).
Qed.

Lemma add_connection_dup os p s :
  Dict.mem p (connections s) = true ->
  add_connection os p s = (Ok tt, s, [duplicate_report p]).
Proof.
  intros H. unfold add_connection, bind, get. simpl. now rewrite H.
Qed.

Lemma remove_connection_present p s l :
  Dict.get p (connections s) = Some l ->
  remove_connection p s
  = (Ok tt, set_connections (Dict.del p (connections s)) s, events (stop l)).
Proof.
  intros H. unfold remove_connection, del_item, bind, get, call, modify. simpl.
  rewrite (get_mem _ _ _ H), H.
  pose proof (stop_result l) as Hr.
  destruct (stop l) as [[r l'] ev]. cbn [result fst] in Hr. subst r. simpl.
  replace (Dict.mem p (Dict.set p l' (connections s))) with true
    by (symmetry; unfold Dict.mem; now rewrite get_set, Z.eqb_refl).
  simpl. now rewrite del_set, app_nil_r.
Qed.

Lemma remove_connection_absent p s :
  Dict.mem p (connections s) = false ->
  remove_connection p s
  = (Ok tt, s, [Print Stdout ("No connection on port " ++ Str.of_int p ++ " to remove.")]).
Proof.
  intros H. unfold remove_connection, bind, get. simpl. now rewrite H.
Qed.

Lemma select_connection_eq p s :
  select_connection p s
  = if Dict.mem p (connections s)
    then (Ok tt, set_selected_port (Some p) s,
          [Print Stdout ("Selected connection on port " ++ Str.of_int p ++ ".")])
    else (Ok tt, s, [unknown_report p]).
Proof.
  unfold select_connection, bind, get. simpl.
  now destruct (Dict.mem p (connections s)).
Qed.

Lemma send_command_unselected w bg command s :
  selected_in_connections s = None ->
  send_command w bg command s = (Ok None, s, [no_selection_report]).
Proof.
  intros H. unfold send_command, bind, get. simpl. now rewrite H.
Qed.

(** On a dict that is not empty, the loop of [stop_all] removes the oldest
    connection and its next step raises: the dict is one entry shorter than
    when the loop began. *)
Lemma stop_all_cons p l rest sel :
  stop_all {| connections := (p, l) :: rest; selected_port := sel |}
  = (Raise (RuntimeError "dictionary changed size during iteration"),
     {| connections := rest; selected_port := sel |},
     events (stop l)).
Proof.
  unfold stop_all. unfold bind at 1. unfold get at 1.
  cbn [Dict.keys map fst Dict.len List.length connections].
  cbn [stop_all_loop]. unfold bind at 1. unfold get at 1.
  cbn [Dict.len List.length connections]. rewrite Nat.eqb_refl. cbn [negb].
  unfold bind at 1.
  rewrite (remove_connection_present p _ l) by (simpl; now rewrite Z.eqb_refl).
  cbn [Dict.del connections set_connections selected_port]. rewrite Z.eqb_refl.
  assert (E : forall todo,
             stop_all_loop (S (List.length rest)) todo
               {| connections := rest; selected_port := sel |}
             = (Raise (RuntimeError "dictionary changed size during iteration"),
                {| connections := rest; selected_port := sel |}, [])).
  { intros todo. destruct todo; cbn [stop_all_loop]; unfold bind, get, Dict.len;
      cbn [connections];
      replace (List.length rest =? S (List.length rest))%nat with false
        by (symmetry; apply Nat.eqb_neq; lia);
      reflexivity. }
  rewrite E. now rewrite app_nil_r.
Qed.

Lemma stop_all_nil sel :
  stop_all {| connections := []; selected_port := sel |}
  = (Ok tt, {| connections := []; selected_port := sel |}, []).
Proof. reflexivity. Qed.

End ManagerFacts.

(** ** The manager: the keys of the dict *)

Section ManagerKeys.
Import Listener Manager.
Implicit Types (s : ConnectionManager) (p : Z) (l : NetcatListener).

Lemma call_keeps {A} p (m : M NetcatListener A) s :
  Dict.keys (connections (state (call p m s))) = Dict.keys (connections s)
  /\ selected_port (state (call p m s)) = selected_port s.
Proof.
  unfold call. destruct (Dict.get p (connections s)) as [l|] eqn:E; [|now split].
  destruct (m l) as [[r l'] ev]. cbn [state fst snd set_connections connections selected_port].
  now rewrite keys_set, (get_mem _ _ _ E).
Qed.

Lemma capture_keeps a s :
  Dict.keys (connections (capture a s)) = Dict.keys (connections s)
  /\ selected_port (capture a s) = selected_port s.
Proof.
  destruct a as [[p f] line]. unfold capture.
  destruct (Dict.get p (connections s)) as [l|] eqn:E; [|now split].
  cbn [set_connections connections selected_port].
  now rewrite keys_set, (get_mem _ _ _ E).
Qed.

Lemma captures_keep bg s :
  Dict.keys (connections (captures bg s))
  = Dict.keys (connections s)
  /\ selected_port (captures bg s) = selected_port s.
Proof.
  unfold captures. revert s. induction bg as [|a bg IH]; intros s; [now split|].
  cbn [fold_left]. destruct (IH (capture a s)) as [-> ->]. apply capture_keeps.
Qed.

Lemma mem_keys_eq {V W} (d : Dict.t V) (d' : Dict.t W) p :
  Dict.keys d' = Dict.keys d -> Dict.mem p d' = Dict.mem p d.
Proof.
  intros E. destruct (Dict.mem p d) eqn:H.
  - apply mem_In. rewrite E. now apply mem_In.
  - apply not_mem_In. rewrite E. now apply not_mem_In.
Qed.

(** The selected listener after the sleep of [send_command], when
    [send_data] returned: the capture threads may have put lines on its
    queues, and nothing else changed. *)
Lemma send_command_selected w bg command s p l :
  selected_in_connections s = Some p ->
  Dict.get p (connections s) = Some l ->
  result (send_data w command l) = Ok tt ->
  exists l1,
    Dict.get p (connections (captures bg s)) = Some l1
    /\ send_command w bg command s
       = (Ok (Some (Str.strip (String.concat "" (stdout_queue l1)))),
          set_connections
            (Dict.set p (set_stdout_queue [] l1)
               (connections (captures bg s)))
            (captures bg s),
          (events (send_data w command l) ++ [Sleep 500])%list).
Proof.
  intros Hsel Hget Hr.
  set (s1 := captures bg s).
  destruct (mem_get p (connections s1)) as [l1 Hl1].
  { unfold s1. rewrite (mem_keys_eq (connections s)) by apply captures_keep.
    eapply get_mem, Hget. }
  exists l1. split; [exact Hl1|].
  unfold send_command. unfold bind at 1. unfold get at 1. rewrite Hsel.
  unfold bind at 1. unfold call at 1. rewrite Hget.
  pose proof (send_data_state w l command) as Hs.
  destruct (send_data w command l) as [[r l'] ev].
  cbn [state result fst snd] in Hs, Hr. subst r l'. cbn [events snd].
  rewrite (set_get_same _ _ _ Hget), set_connections_same.
  unfold bind at 1. unfold sleep. unfold bind at 1. unfold emit at 1.
  unfold modify at 1. fold s1.
  unfold bind at 1. unfold call at 1. rewrite Hl1, receive_data_eq.
  unfold ret. cbn [app]. reflexivity.
Qed.

(** When the write of [send_data] raises, [send_command] raises with it: it
    has changed nothing, and neither slept nor received. *)
Lemma send_command_raises w bg command s p l :
  selected_in_connections s = Some p ->
  Dict.get p (connections s) = Some l ->
  send_data w command l = (Raise BrokenPipeError, l, []) ->
  send_command w bg command s = (Raise BrokenPipeError, s, []).
Proof.
  intros Hsel Hget E.
  unfold send_command. unfold bind at 1. unfold get at 1. rewrite Hsel.
  unfold bind at 1. unfold call at 1. rewrite Hget, E.
  now rewrite (set_get_same _ _ _ Hget), set_connections_same.
Qed.

Lemma show_selected_state s :
  state (show_selected s) = s
  \/ exists p, state (show_selected s) = state (call p receive_data s).
Proof.
  unfold show_selected, bind, get. cbv beta iota.
  destruct (selected_port s) as [p|]; [|now left].
  destruct (p =? 0); [now left|]. right. exists p.
  destruct (call p receive_data s) as [[[response|e] s1] ev]; [|reflexivity].
  now destruct response.
Qed.

Lemma show_selected_keeps s :
  Dict.keys (connections (state (show_selected s))) = Dict.keys (connections s)
  /\ selected_port (state (show_selected s)) = selected_port s.
Proof.
  destruct (show_selected_state s) as [->|[p ->]]; [now split | apply call_keeps].
Qed.

Lemma selected_in_connections_Some s p :
  selected_in_connections s = Some p ->
  selected_port s = Some p /\ Dict.mem p (connections s) = true.
Proof.
  unfold selected_in_connections. destruct (selected_port s) as [q|]; [|discriminate].
  destruct (Dict.mem q (connections s)) eqn:E; [|discriminate].
  now intros [= <-].
Qed.

Lemma send_command_keeps w bg command s :
  Dict.keys (connections (state (send_command w bg command s))) = Dict.keys (connections s)
  /\ selected_port (state (send_command w bg command s)) = selected_port s.
Proof.
  destruct (selected_in_connections s) as [p|] eqn:Hsel.
  - destruct (selected_in_connections_Some s p Hsel) as [_ Hm].
    destruct (mem_get _ _ Hm) as [l Hl].
    destruct (send_data_cases w l command) as [Hr|E].
    + destruct (send_command_selected w bg command s p l Hsel Hl Hr) as (l1 & Hl1 & ->).
      cbn [state fst snd set_connections connections selected_port].
      rewrite keys_set, (get_mem _ _ _ Hl1). apply captures_keep.
    + now rewrite (send_command_raises w bg command s p l Hsel Hl E).
  - now rewrite (send_command_unselected w bg command s Hsel).
Qed.

(** No operation puts a port twice in the dict. *)
Lemma exec_NoDup o s :
  NoDup (Dict.keys (connections s)) -> NoDup (Dict.keys (connections (exec o s))).
Proof.
  intros H. destruct o as [os p|p| |p|w bg command| | |a]; cbn [exec].
  - destruct (Dict.mem p (connections s)) eqn:E.
    + now rewrite (add_connection_dup os p s E).
    + rewrite (add_connection_new os p s E). cbn [state fst snd set_connections connections].
      rewrite <- (set_new _ _ _ E). now apply NoDup_keys_set.
  - destruct (Dict.get p (connections s)) as [l|] eqn:E.
    + rewrite (remove_connection_present p s l E).
      cbn [state fst snd set_connections connections]. now apply NoDup_keys_del.
    + rewrite (remove_connection_absent p s); [exact H|]. unfold Dict.mem. now rewrite E.
  - exact H.
  - rewrite select_connection_eq. now destruct (Dict.mem p (connections s)).
  - now rewrite (proj1 (send_command_keeps w bg command s)).
  - destruct s as [[|[p l] rest] sel].
    + exact H.
    + rewrite stop_all_cons. cbn [state fst snd connections]. now inversion H.
  - now rewrite (proj1 (show_selected_keeps s)).
  - now rewrite (proj1 (capture_keeps a s)).
Qed.

Lemma reachable_NoDup s : reachable s -> NoDup (Dict.keys (connections s)).
Proof.
  induction 1 as [|s o _ IH]; [constructor | now apply exec_NoDup].
Qed.

Lemma reachable_execs os s : reachable s -> reachable (execs os s).
Proof.
  revert s. induction os as [|o os IH]; intros s H; [exact H|].
  apply IH. now constructor.
Qed.

End ManagerKeys.

(** ** The session registry *)

Section Registry.
Import Listener Manager.
Implicit Types (s : ConnectionManager) (p : Z) (l : NetcatListener).

(** The manager after [add(p); select(p); remove(p)] from the start. *)
Lemma add_select_remove os p :
  execs [Add os p; Select p; Remove p] Manager.init
  = {| connections := []; selected_port := Some p |}.
Proof.
  unfold execs. cbn [fold_left exec].
  rewrite (add_connection_new os p Manager.init) by reflexivity.
  set (l0 := state (start os (Listener.init p))).
  cbn [state fst snd]. unfold set_connections, Manager.init. cbn [connections selected_port app].
  rewrite select_connection_eq. unfold Dict.mem. cbn [connections Dict.get].
  rewrite Z.eqb_refl. cbn [state fst snd].
  rewrite (remove_connection_present p _ l0)
    by (cbn [connections set_selected_port Dict.get]; now rewrite Z.eqb_refl).
  cbn [state fst snd set_connections set_selected_port connections selected_port Dict.del].
  now rewrite Z.eqb_refl.
Qed.

(** Removing the selected connection in any reachable manager leaves the
    selection on a port the dict no longer holds. *)
Lemma remove_selected_dangles s p :
  reachable s -> selected_port s = Some p -> Dict.mem p (connections s) = true ->
  selected_port (exec (Remove p) s) = Some p
  /\ Dict.mem p (connections (exec (Remove p) s)) = false.
Proof.
  intros Hr Hs Hm. destruct (mem_get _ _ Hm) as [l Hl]. cbn [exec].
  rewrite (remove_connection_present p s l Hl).
  cbn [state fst snd set_connections connections selected_port].
  split; [exact Hs | apply mem_del, reachable_NoDup, Hr].
Qed.

(** C1 does not hold of the code.  [remove_connection] never touches
    [selected_port]: after [add(p); select(p); remove(p)] on a fresh manager,
    a reachable state, [p] is still selected and is no key of the dict, and
    the head of the main loop, which subscripts the dict with the selected
    port, raises [KeyError] (for [p] other than 0). *)
Theorem remove_selected_keeps_selection (os : spawn) (p : Z) :
  let s := execs [Add os p; Select p; Remove p] Manager.init in
  reachable s
  /\ selected_port s = Some p
  /\ Dict.mem p (connections s) = false
  /\ result (show_selected s) = if p =? 0 then Ok tt else Raise (KeyError p).
Proof.
  cbv zeta. split; [apply reachable_execs, reachable_init|].
  rewrite add_select_remove. repeat split.
  unfold show_selected, bind, get. cbn [selected_port].
  now destruct (p =? 0).
Qed.

(** [add(9000); add(9001); select(9000)] with child processes 41 and 42. *)
Lemma two_sessions :
  execs [Add (Spawned {| pid := 41 |}) 9000;
         Add (Spawned {| pid := 42 |}) 9001;
         Select 9000] Manager.init
  = {| connections :=
         [ (9000, {| port := 9000; process := Some {| pid := 41 |};
                     stdout_queue := []; stderr_queue := []; running := true |});
           (9001, {| port := 9001; process := Some {| pid := 42 |};
                     stdout_queue := []; stderr_queue := []; running := true |}) ];
       selected_port := Some 9000 |}.
Proof. reflexivity. Qed.

(** C2 does not hold of the code.  On a manager with at least one connection
    [stop_all] stops and removes the oldest connection only: the next step of
    the loop over the keys raises [RuntimeError], because the dict changed
    size.  Every other connection stays listed, its process is neither
    terminated nor awaited, and the selection is as it was.  So on the
    listeners of ports 9000 (process 41, selected) and 9001 (process 42),
    port 9001 stays listed and port 9000 stays selected. *)
Theorem stop_all_removes_one_then_raises :
  (forall (p : Z) (l : NetcatListener) (rest : Dict.t NetcatListener) (sel : option Z),
      let o := stop_all {| connections := (p, l) :: rest; selected_port := sel |} in
      result o = Raise (RuntimeError "dictionary changed size during iteration")
      /\ result (list_connections (state o)) = Ok (Dict.keys rest)
      /\ connections (state o) = rest
      /\ selected_port (state o) = sel
      /\ events o = events (stop l))
  /\ let s := execs [Add (Spawned {| pid := 41 |}) 9000;
                     Add (Spawned {| pid := 42 |}) 9001;
                     Select 9000] Manager.init in
     result (stop_all s) = Raise (RuntimeError "dictionary changed size during iteration")
     /\ result (list_connections (state (stop_all s))) = Ok [9001]
     /\ selected_port (state (stop_all s)) = Some 9000
     /\ events (stop_all s)
        = [ Print Stdout "Stopping netcat listener on port 9000...";
            Terminate {| pid := 41 |};
            Wait {| pid := 41 |};
            Print Stdout "Netcat listener stopped on port 9000." ].
Proof.
  split.
  - intros p l rest sel. cbv zeta. rewrite stop_all_cons. repeat split.
  - cbv zeta. rewrite two_sessions, stop_all_cons. repeat split.
Qed.

(** The way out of the main loop on the command [stop]: [stop_all] is called
    and raises, and the [finally] clause calls it once more.  Of three
    listeners the newest is still listed afterwards and was never stopped. *)
Example stop_twice_three_sessions :
  let s := execs [Add (Spawned {| pid := 41 |}) 9000;
                  Add (Spawned {| pid := 42 |}) 9001;
                  Add (Spawned {| pid := 43 |}) 9002] Manager.init in
  let s' := execs [StopAll; StopAll] s in
  result (list_connections s') = Ok [9002]
  /\ Dict.get 9002 (connections s') = Dict.get 9002 (connections s)
  /\ ~ In (Terminate {| pid := 43 |})
        (events (stop_all s) ++ events (stop_all (state (stop_all s)))).
Proof.
  repeat split. simpl. intros H.
  repeat (destruct H as [H|H]; [discriminate H|]). exact H.
Qed.

(** C3, as the code has it.  When the spawn fails during [add(p)] for a port
    [p] that is not registered, [start] reports the failure on the error
    stream and raises nothing, and [add_connection] registers the listener
    all the same: [p] becomes the newest key of the dict, bound to a listener
    whose process handle is unset.  [selected_port] is untouched. *)
Theorem add_connection_spawn_failed (os : spawn) (p : Z) (s : ConnectionManager) :
  Dict.mem p (connections s) = false ->
  spawn_failed os = true ->
  let o := add_connection os p s in
  result o = Ok tt
  /\ connections (state o) = (connections s ++ [(p, Listener.init p)])%list
  /\ Dict.get p (connections (state o)) = Some (Listener.init p)
  /\ process (Listener.init p) = None
  /\ selected_port (state o) = selected_port s
  /\ events o
     = ([ Print Stdout ("Starting netcat listener on port " ++ Str.of_int p ++ "...");
          Spawn ["nc"; "-l"; "-p"; Str.of_int p] ] ++ spawn_failure_report os)%list.
Proof.
  intros Hm Hf. cbv zeta. rewrite (add_connection_new os p s Hm).
  destruct (start_failed p os Hf) as [_ Hst]. rewrite Hst.
  cbn [result state events fst snd set_connections connections selected_port].
  repeat split.
  - rewrite <- (set_new _ _ _ Hm), get_set. now rewrite Z.eqb_refl.
  - destruct os; [discriminate | reflexivity | reflexivity].
Qed.

Lemma add_connection_spawn_failed_witness :
  let o := add_connection NotFound 9000 Manager.init in
  result o = Ok tt
  /\ connections (state o) = [(9000, Listener.init 9000)]
  /\ Dict.get 9000 (connections (state o)) = Some (Listener.init 9000)
  /\ process (Listener.init 9000) = None
  /\ selected_port (state o) = None
  /\ events o
     = [ Print Stdout "Starting netcat listener on port 9000...";
         Spawn ["nc"; "-l"; "-p"; "9000"];
         Print Stderr "Netcat (nc) is not installed. Please install it and try again." ].
Proof.
  exact (add_connection_spawn_failed NotFound 9000 Manager.init eq_refl eq_refl).
Defined.

(** C3, as the specification words it, fails: on a fresh manager, where port
    9000 is not registered, [add(9000)] with no [nc] binary installed leaves
    port 9000 registered, so the registry state is not unchanged. *)
Lemma add_connection_failed_spawn_registers :
  let o := add_connection NotFound 9000 Manager.init in
  Dict.mem 9000 (connections Manager.init) = false
  /\ Dict.mem 9000 (connections (state o)) = true
  /\ result (list_connections (state o)) = Ok [9000]
  /\ state o <> Manager.init.
Proof. repeat split. discriminate. Qed.

Lemma selected_in_connections_intro s p l :
  selected_port s = Some p -> Dict.get p (connections s) = Some l ->
  selected_in_connections s = Some p.
Proof.
  intros Hs Hl. unfold selected_in_connections. now rewrite Hs, (get_mem _ _ _ Hl).
Qed.

(** C6, as the code has it.  With port [p] selected and bound to the
    listener [l], and the child process of [l] reading its input,
    [send_command] does three things in this order and nothing else.  It
    calls [send_data] of [l] with the command: on a listener with a process
    that is one write of the command followed by a line feed on the standard
    input of the process and one flush (on a listener without process,
    nothing).  It sleeps 500 ms, during which the capture threads may enqueue
    the lines [bg].  It calls [receive_data] of the selected listener as the
    sleep left it, [l1], and returns its result, leaving the stdout queue of
    that listener drained.  When the child process has exited, the write
    raises [BrokenPipeError] and [send_command] raises it: it has changed
    nothing and has neither flushed, slept nor received; without a process
    nothing is written, so nothing differs. *)
Theorem send_command_sequence
    (bg : list arrival) (command : string) (s : ConnectionManager) (p : Z) (l : NetcatListener) :
  selected_port s = Some p ->
  Dict.get p (connections s) = Some l ->
  (exists (l1 : NetcatListener) (response : string),
      Dict.get p (connections (captures bg s)) = Some l1
      /\ events (send_command Reading bg command s)
         = (events (send_data Reading command l) ++ [Sleep 500])%list
      /\ events (send_data Reading command l)
         = match process l with
           | Some pr => [StdinWrite pr (command ++ Str.nl); StdinFlush pr]
           | None => []
           end
      /\ result (receive_data l1) = Ok response
      /\ result (send_command Reading bg command s) = Ok (Some response)
      /\ Dict.get p (connections (state (send_command Reading bg command s)))
         = Some (state (receive_data l1))
      /\ selected_port (state (send_command Reading bg command s)) = Some p)
  /\ send_command Exited bg command s
     = match process l with
       | Some _ => (Raise BrokenPipeError, s, [])
       | None => send_command Reading bg command s
       end.
Proof.
  intros Hs Hl.
  pose proof (selected_in_connections_intro s p l Hs Hl) as Hsel.
  assert (Hr : result (send_data Reading command l) = Ok tt).
  { destruct (process l) as [pr|] eqn:Hp;
      [now rewrite (send_data_set l pr) | now rewrite send_data_unset]. }
  split.
  - destruct (send_command_selected Reading bg command s p l Hsel Hl Hr) as (l1 & Hl1 & E).
    exists l1, (Str.strip (String.concat "" (stdout_queue l1))).
    rewrite E, receive_data_eq.
    cbn [result state events fst snd set_connections connections selected_port].
    repeat split.
    + exact Hl1.
    + destruct (process l) as [pr|] eqn:Hp;
        [now rewrite (send_data_set l pr) | now rewrite send_data_unset].
    + rewrite get_set. now rewrite Z.eqb_refl.
    + rewrite (proj2 (captures_keep bg s)). exact Hs.
  - destruct (process l) as [pr|] eqn:Hp.
    + apply (send_command_raises Exited bg command s p l Hsel Hl).
      now apply (send_data_exited l pr).
    + assert (Hx : result (send_data Exited command l) = Ok tt)
        by now rewrite send_data_unset.
      destruct (send_command_selected Exited bg command s p l Hsel Hl Hx) as (l1 & Hl1 & ->).
      destruct (send_command_selected Reading bg command s p l Hsel Hl Hr) as (l2 & Hl2 & ->).
      rewrite Hl1 in Hl2. injection Hl2 as <-.
      now rewrite !send_data_unset.
Qed.

(** With no line arriving during the sleep, the snapshot is what was on the
    queue of the selected listener when [send_command] was called. *)
Lemma send_command_quiet command s p l :
  selected_port s = Some p ->
  Dict.get p (connections s) = Some l ->
  result (send_command Reading [] command s) = result (option_map_ok (receive_data l)).
Proof.
  intros Hs Hl.
  assert (Hr : result (send_data Reading command l) = Ok tt).
  { destruct (process l) as [pr|] eqn:Hp;
      [now rewrite (send_data_set l pr) | now rewrite send_data_unset]. }
  destruct (send_command_selected Reading [] command s p l
              (selected_in_connections_intro s p l Hs Hl) Hl Hr) as (l1 & Hl1 & E).
  unfold captures in Hl1. cbn [fold_left] in Hl1. rewrite Hl in Hl1. injection Hl1 as <-.
  rewrite E. unfold option_map_ok. now rewrite receive_data_eq.
Qed.

Lemma send_command_sequence_witness :
  let s := execs [Add (Spawned {| pid := 41 |}) 9000; Select 9000] Manager.init in
  let bg := [(9000, Stdout, "uid=0(root)" ++ Str.nl)] in
  events (send_command Reading bg "id" s)
  = [StdinWrite {| pid := 41 |} ("id" ++ Str.nl); StdinFlush {| pid := 41 |}; Sleep 500]
  /\ result (send_command Reading bg "id" s) = Ok (Some "uid=0(root)")
  /\ send_command Exited bg "id" s = (Raise BrokenPipeError, s, []).
Proof.
  cbv zeta.
  destruct (send_command_sequence
              [(9000, Stdout, "uid=0(root)" ++ Str.nl)] "id"
              (execs [Add (Spawned {| pid := 41 |}) 9000; Select 9000] Manager.init)
              9000
              (state (start (Spawned {| pid := 41 |}) (Listener.init 9000)))
              eq_refl eq_refl)
    as [(l1 & response & H1 & H2 & H3 & H4 & H5 & _) H6].
  split; [|split].
  - rewrite H2, H3. reflexivity.
  - rewrite H5. injection H1 as <-. injection H4 as <-. reflexivity.
  - exact H6.
Defined.

(** C6, as the specification words it, fails on a selected listener whose
    child process has exited: for the listener on port 9000 with child
    process 41, selected, the write raises [BrokenPipeError];
    [send_command] returns no snapshot, and there is no flush, no sleep and
    no receive. *)
Lemma send_command_broken_pipe :
  let s := execs [Add (Spawned {| pid := 41 |}) 9000; Select 9000] Manager.init in
  selected_port s = Some 9000
  /\ Dict.mem 9000 (connections s) = true
  /\ result (send_command Exited [] "id" s) = Raise BrokenPipeError
  /\ events (send_command Exited [] "id" s) = []
  /\ ~ In (Sleep 500) (events (send_command Exited [] "id" s)).
Proof. repeat split. intros []. Qed.



(** C8.  With no port selected, [send_command] returns [None], prints
    [No connection selected.] and leaves the manager, its dict and its
    selection as they were; it writes to no process and does not sleep. *)
Theorem send_command_no_selection
    (w : pipe) (bg : list arrival) (command : string) (s : ConnectionManager) :
  selected_port s = None ->
  send_command w bg command s = (Ok None, s, [Print Stdout "No connection selected."]).
Proof.
  intros Hs. apply send_command_unselected.
  unfold selected_in_connections. now rewrite Hs.
Qed.

Lemma send_command_no_selection_witness :
  send_command Reading [] "id" Manager.init
  = (Ok None, Manager.init, [Print Stdout "No connection selected."]).
Proof. exact (send_command_no_selection Reading [] "id" Manager.init eq_refl). Defined.


(** C10.  On a listener whose process handle is unset, [send_data] returns
    normally for every [data], leaves the listener as it was and emits no
    event: nothing is written, so it does not matter what a write would
    meet.  So when such a listener is the selected one,
    [send_command] does not raise: it only sleeps and returns the snapshot of
    the queue. *)
Theorem send_data_unset_is_noop (w : pipe) (l : NetcatListener) (data : string) :
  process l = None ->
  send_data w data l = (Ok tt, l, [])
  /\ forall (s : ConnectionManager) (p : Z) (bg : list arrival),
      selected_port s = Some p ->
      Dict.get p (connections s) = Some l ->
      events (send_command w bg data s) = [Sleep 500]
      /\ exists response, result (send_command w bg data s) = Ok (Some response).
Proof.
  intros Hp. split; [now apply send_data_unset|].
  intros s p bg Hs Hl.
  assert (Hr : result (send_data w data l) = Ok tt) by now rewrite send_data_unset.
  destruct (send_command_selected w bg data s p l
              (selected_in_connections_intro s p l Hs Hl) Hl Hr) as (l1 & _ & E).
  rewrite E, (send_data_unset w l data Hp). split; [reflexivity | eexists; reflexivity].
Qed.

Lemma send_data_unset_is_noop_witness :
  let s := execs [Add NotFound 9000; Select 9000] Manager.init in
  send_data Exited "id" (Listener.init 9000) = (Ok tt, Listener.init 9000, [])
  /\ events (send_command Exited [] "id" s) = [Sleep 500].
Proof.
  cbv zeta.
  destruct (send_data_unset_is_noop Exited (Listener.init 9000) "id" eq_refl) as [H1 H2].
  split; [exact H1|].
  exact (proj1 (H2 (execs [Add NotFound 9000; Select 9000] Manager.init) 9000 []
                  eq_refl eq_refl)).
Defined.

End Registry.

(** * More of the program *)

(** ** White space *)

Section Strip.
Implicit Types (s r : string) (c : ascii).

Lemma lstrip_idem s : Str.lstrip (Str.lstrip s) = Str.lstrip s.
Proof.
  induction s as [|c s IH]; [reflexivity|]. cbn [Str.lstrip].
  destruct (Str.isspace c) eqn:E; [exact IH|]. cbn [Str.lstrip]. now rewrite E.
Qed.

Lemma lstrip_length s : (String.length (Str.lstrip s) <= String.length s)%nat.
Proof.
  induction s as [|c s IH]; cbn [Str.lstrip]; [lia|].
  destruct (Str.isspace c); cbn [String.length]; lia.
Qed.

Lemma rstrip_cons c s :
  Str.rstrip (String c s)
  = match Str.rstrip s with
    | EmptyString => if Str.isspace c then EmptyString else String c EmptyString
    | r => String c r
    end.
Proof. reflexivity. Qed.

Lemma rstrip_idem s : Str.rstrip (Str.rstrip s) = Str.rstrip s.
Proof.
  induction s as [|c s IH]; [reflexivity|]. rewrite rstrip_cons.
  destruct (Str.rstrip s) as [|c' r] eqn:Er.
  - destruct (Str.isspace c) eqn:E; [reflexivity|]. cbn [Str.rstrip]. now rewrite E.
  - rewrite rstrip_cons, IH. reflexivity.
Qed.

(** Trimming at the end keeps the first character of a string that begins
    with no white space. *)
Lemma lstrip_rstrip s : Str.lstrip s = s -> Str.lstrip (Str.rstrip s) = Str.rstrip s.
Proof.
  destruct s as [|c s]; [reflexivity|]. cbn [Str.lstrip].
  destruct (Str.isspace c) eqn:E.
  - intros H. exfalso.
    pose proof (lstrip_length s) as L. rewrite H in L. cbn [String.length] in L. lia.
  - intros _. cbn [Str.rstrip].
    destruct (Str.rstrip s); [rewrite E|]; cbn [Str.lstrip]; now rewrite E.
Qed.

Lemma strip_lstrip s : Str.lstrip (Str.strip s) = Str.strip s.
Proof. unfold Str.strip. apply lstrip_rstrip, lstrip_idem. Qed.

Lemma strip_rstrip s : Str.rstrip (Str.strip s) = Str.strip s.
Proof. unfold Str.strip. apply rstrip_idem. Qed.

Lemma lstrip_all_space s : String.eqb (Str.lstrip s) "" = all_space s.
Proof.
  induction s as [|c s IH]; [reflexivity|]. cbn [Str.lstrip all_space].
  now destruct (Str.isspace c).
Qed.

Lemma rstrip_empty s : Str.lstrip s = s -> String.eqb (Str.rstrip s) "" = String.eqb s "".
Proof.
  intros H. rewrite <- (lstrip_rstrip s H).
  destruct s as [|c s]; [reflexivity|]. cbn [Str.lstrip] in H.
  destruct (Str.isspace c) eqn:E.
  - exfalso.
    pose proof (lstrip_length s) as L. rewrite H in L. cbn [String.length] in L. lia.
  - cbn [Str.rstrip]. destruct (Str.rstrip s); [rewrite E|]; cbn [Str.lstrip]; now rewrite E.
Qed.

Lemma strip_empty s : String.eqb (Str.strip s) "" = all_space s.
Proof.
  unfold Str.strip. rewrite (rstrip_empty _ (lstrip_idem s)). apply lstrip_all_space.
Qed.

End Strip.

(** X1.  What [receive_data] returns neither begins nor ends with white
    space: trimming it again at either end changes nothing.  It is the empty
    string exactly when the queued text is white space only (or nothing). *)
Theorem receive_data_trimmed (l : NetcatListener) :
  exists r,
    result (Listener.receive_data l) = Ok r
    /\ Str.lstrip r = r
    /\ Str.rstrip r = r
    /\ String.eqb r "" = all_space (String.concat "" (stdout_queue l)).
Proof.
  rewrite receive_data_eq. eexists. split; [reflexivity|].
  split; [apply strip_lstrip | split; [apply strip_rstrip | apply strip_empty]].
Qed.

(** ** Capture and drain *)

Section Capture.
Import Listener Manager.
Implicit Types (s : ConnectionManager) (p : Z) (l : NetcatListener).

Lemma concat_app (a b : list string) :
  String.concat "" (a ++ b) = String.concat "" a ++ String.concat "" b.
Proof.
  induction a as [|x a IH]; [reflexivity|].
  change ((x :: a) ++ b)%list with (x :: (a ++ b))%list.
  now rewrite !concat_cons, IH, append_assoc.
Qed.

(** One turn of the capture thread of a listener with a process appends the
    line to the text queued, and changes nothing else. *)
Lemma read_stdout_joined l pr line :
  process l = Some pr ->
  String.concat "" (stdout_queue (read_stdout line l))
  = String.concat "" (stdout_queue l) ++ line
  /\ process (read_stdout line l) = Some pr
  /\ stderr_queue (read_stdout line l) = stderr_queue l
  /\ port (read_stdout line l) = port l
  /\ running (read_stdout line l) = running l.
Proof.
  intros H. unfold read_stdout. rewrite H. destruct line as [|c line].
  - now rewrite append_empty_r.
  - cbn [stdout_queue set_stdout_queue process stderr_queue port running].
    rewrite concat_app. cbn [String.concat]. auto.
Qed.

Lemma read_stderr_keeps l line :
  stdout_queue (read_stderr line l) = stdout_queue l
  /\ process (read_stderr line l) = process l
  /\ port (read_stderr line l) = port l
  /\ running (read_stderr line l) = running l.
Proof.
  unfold read_stderr. destruct (process l) as [pr|] eqn:E; [|now rewrite E].
  destruct line; cbn [stdout_queue process port running set_stderr_queue];
    now rewrite ?E.
Qed.

Lemma read_lines_joined lines l pr :
  process l = Some pr ->
  String.concat "" (stdout_queue (read_lines lines l))
  = String.concat "" (stdout_queue l) ++ String.concat "" lines
  /\ process (read_lines lines l) = Some pr
  /\ stderr_queue (read_lines lines l) = stderr_queue l.
Proof.
  unfold read_lines. revert l. induction lines as [|line lines IH]; intros l H.
  - cbn [fold_left String.concat]. now rewrite append_empty_r.
  - cbn [fold_left].
    destruct (read_stdout_joined l pr line H) as (Hq & Hp & He & _).
    destruct (IH _ Hp) as (-> & -> & ->).
    now rewrite Hq, He, concat_cons, append_assoc.
Qed.

(** The queue after the capture thread read [lines]: the empty reads are
    not on it. *)
Lemma read_lines_queue lines l pr :
  process l = Some pr ->
  stdout_queue (read_lines lines l)
  = (stdout_queue l ++ filter (fun line => negb (String.eqb line "")) lines)%list.
Proof.
  unfold read_lines. revert l. induction lines as [|line lines IH]; intros l H.
  - cbn [fold_left filter]. now rewrite app_nil_r.
  - cbn [fold_left filter].
    destruct (read_stdout_joined l pr line H) as (_ & Hp & _).
    rewrite (IH _ Hp). unfold read_stdout. rewrite H.
    destruct line as [|c line]; [reflexivity|].
    cbn [String.eqb negb stdout_queue set_stdout_queue]. now rewrite <- app_assoc.
Qed.

(** The selected listener after the capture threads enqueued [bg]. *)
Lemma captures_joined bg s p l pr :
  Dict.get p (connections s) = Some l ->
  process l = Some pr ->
  exists l1,
    Dict.get p (connections (captures bg s)) = Some l1
    /\ process l1 = Some pr
    /\ String.concat "" (stdout_queue l1)
       = String.concat "" (stdout_queue l) ++ String.concat "" (stdout_lines_of p bg).
Proof.
  unfold captures. revert s l. induction bg as [|[[q f] line] bg IH]; intros s l Hl Hp.
  - exists l. cbn [fold_left stdout_lines_of String.concat].
    now rewrite append_empty_r.
  - cbn [fold_left]. unfold capture at 2.
    destruct (Z.eqb_spec q p) as [->|Hq].
    + rewrite Hl. destruct f.
      * destruct (read_stdout_joined l pr line Hp) as (Hj & Hp' & _).
        destruct (IH (set_connections (Dict.set p (read_stdout line l) (connections s)) s)
                    (read_stdout line l)) as (l1 & H1 & H2 & H3).
        { cbn [connections set_connections]. now rewrite get_set, Z.eqb_refl. }
        { exact Hp'. }
        exists l1. split; [exact H1 | split; [exact H2|]].
        rewrite H3, Hj. cbn [stdout_lines_of]. rewrite Z.eqb_refl.
        now rewrite concat_cons, append_assoc.
      * destruct (read_stderr_keeps l line) as (Hq' & Hp' & _).
        destruct (IH (set_connections (Dict.set p (read_stderr line l) (connections s)) s)
                    (read_stderr line l)) as (l1 & H1 & H2 & H3).
        { cbn [connections set_connections]. now rewrite get_set, Z.eqb_refl. }
        { now rewrite Hp'. }
        exists l1. split; [exact H1 | split; [exact H2|]].
        rewrite H3, Hq'. reflexivity.
    + assert (E : stdout_lines_of p ((q, f, line) :: bg) = stdout_lines_of p bg).
      { cbn [stdout_lines_of]. destruct f; [|reflexivity].
        destruct (Z.eqb_spec q p); [contradiction | reflexivity]. }
      unfold arrival in *. rewrite E.
      destruct (Dict.get q (connections s)) as [lq|] eqn:Eq; [|now apply IH].
      apply IH; [|exact Hp]. cbn [connections set_connections].
      rewrite get_set. destruct (Z.eqb_spec p q); [congruence | exact Hl].
Qed.

End Capture.

(** X2.  The capture thread of a listener with a process enqueues each
    line it reads, in the order read, except the empty reads, which it
    drops, and leaves the queue of the error stream alone.  So the lines come
    out of the next [receive_data] after what was queued before, joined and
    trimmed at both ends. *)
Theorem read_lines_then_receive (lines : list string) (l : NetcatListener) (pr : Popen) :
  process l = Some pr ->
  stdout_queue (read_lines lines l)
  = (stdout_queue l ++ filter (fun line => negb (String.eqb line "")) lines)%list
  /\ result (Listener.receive_data (read_lines lines l))
     = Ok (Str.strip (String.concat "" (stdout_queue l ++ lines)))
  /\ stderr_queue (read_lines lines l) = stderr_queue l.
Proof.
  intros H. destruct (read_lines_joined lines l pr H) as (Hj & _ & He).
  split; [now apply (read_lines_queue lines l pr)|].
  rewrite receive_data_eq. cbn [result fst]. now rewrite Hj, concat_app.
Qed.

Lemma read_lines_then_receive_witness :
  let l := state (Listener.start (Listener.Spawned {| pid := 41 |}) (Listener.init 9000)) in
  stdout_queue (read_lines [" one" ++ Str.nl; ""; "two " ++ Str.nl] l)
  = [" one" ++ Str.nl; "two " ++ Str.nl]
  /\ result (Listener.receive_data (read_lines [" one" ++ Str.nl; ""; "two " ++ Str.nl] l))
     = Ok ("one" ++ Str.nl ++ "two").
Proof.
  cbv zeta.
  destruct (read_lines_then_receive
              [" one" ++ Str.nl; ""; "two " ++ Str.nl]
              (state (Listener.start (Listener.Spawned {| pid := 41 |}) (Listener.init 9000)))
              {| pid := 41 |} eq_refl) as (H1 & H2 & _).
  split; [exact H1 | exact H2].
Defined.

(** X3.  With a port selected whose listener has a process, and the child
    process reading its input, [send_command] returns the text that was
    queued on the standard output of that listener followed by the lines
    that its capture thread enqueued during the sleep, in order, trimmed at
    both ends.  Lines of other ports and lines of an error stream are no
    part of it.  When the child process has exited, [send_command] returns
    nothing: it raises [BrokenPipeError] and leaves the manager as it
    was. *)
Theorem send_command_response
    (bg : list Manager.arrival) (command : string) (s : ConnectionManager)
    (p : Z) (l : NetcatListener) (pr : Popen) :
  selected_port s = Some p ->
  Dict.get p (connections s) = Some l ->
  process l = Some pr ->
  result (Manager.send_command Listener.Reading bg command s)
  = Ok (Some (Str.strip (String.concat "" (stdout_queue l ++ stdout_lines_of p bg))))
  /\ Manager.send_command Listener.Exited bg command s = (Raise BrokenPipeError, s, []).
Proof.
  intros Hs Hl Hp.
  pose proof (selected_in_connections_intro s p l Hs Hl) as Hsel. split.
  - assert (Hr : result (Listener.send_data Listener.Reading command l) = Ok tt)
      by now rewrite (send_data_set l pr command Hp).
    destruct (send_command_selected Listener.Reading bg command s p l Hsel Hl Hr)
      as (l1 & Hl1 & ->).
    destruct (captures_joined bg s p l pr Hl Hp) as (l1' & Hl1' & _ & Hj).
    rewrite Hl1 in Hl1'. injection Hl1' as <-.
    cbn [result fst]. now rewrite Hj, concat_app.
  - apply (send_command_raises Listener.Exited bg command s p l Hsel Hl).
    now apply (send_data_exited l pr).
Qed.

Lemma send_command_response_witness :
  let s := Manager.execs [Manager.Add (Listener.Spawned {| pid := 41 |}) 9000;
                          Manager.Add (Listener.Spawned {| pid := 42 |}) 9001;
                          Manager.Select 9000] Manager.init in
  let bg := [(9001, Stdout, "other" ++ Str.nl); (9000, Stderr, "error" ++ Str.nl);
             (9000, Stdout, "uid=0(root)" ++ Str.nl)] in
  result (Manager.send_command Listener.Reading bg "id" s) = Ok (Some "uid=0(root)")
  /\ Manager.send_command Listener.Exited bg "id" s = (Raise BrokenPipeError, s, []).
Proof.
  exact (send_command_response
           [(9001, Stdout, "other" ++ Str.nl); (9000, Stderr, "error" ++ Str.nl);
            (9000, Stdout, "uid=0(root)" ++ Str.nl)] "id"
           (Manager.execs [Manager.Add (Listener.Spawned {| pid := 41 |}) 9000;
                           Manager.Add (Listener.Spawned {| pid := 42 |}) 9001;
                           Manager.Select 9000] Manager.init)
           9000
           {| port := 9000; process := Some {| pid := 41 |}; stdout_queue := [];
              stderr_queue := []; running := true |}
           {| pid := 41 |} eq_refl eq_refl eq_refl).
Defined.

(** ** What every reachable manager keeps *)

Section Invariant.
Import Listener Manager.
Implicit Types (s : ConnectionManager) (p k : Z) (l : NetcatListener)
  (d : Dict.t NetcatListener).

Lemma entries_ok_set k l d :
  entries_ok d -> listener_ok k l -> entries_ok (Dict.set k l d).
Proof.
  unfold entries_ok. intros Hd Hl. induction d as [|[k' l'] d IH]; cbn [Dict.set].
  - now constructor.
  - inversion Hd as [|? ? H1 H2]; subst.
    destruct (Z.eqb_spec k k') as [->|Hk]; constructor; auto.
Qed.

Lemma entries_ok_del k d : entries_ok d -> entries_ok (Dict.del k d).
Proof.
  unfold entries_ok. intros Hd. induction d as [|[k' l'] d IH]; cbn [Dict.del]; [constructor|].
  inversion Hd as [|? ? H1 H2]; subst.
  destruct (k =? k'); [exact H2 | constructor; auto].
Qed.

Lemma entries_ok_get k l d : entries_ok d -> Dict.get k d = Some l -> listener_ok k l.
Proof.
  unfold entries_ok. intros Hd. induction d as [|[k' l'] d IH]; cbn [Dict.get]; [discriminate|].
  inversion Hd as [|? ? H1 H2]; subst.
  destruct (Z.eqb_spec k k') as [->|Hk]; [now intros [= <-] | auto].
Qed.

Lemma listener_ok_start os p : listener_ok p (state (start os (Listener.init p))).
Proof. destruct os; repeat split; discriminate. Qed.

Lemma listener_ok_drained k l : listener_ok k l -> listener_ok k (set_stdout_queue [] l).
Proof.
  intros (H1 & H2 & H3). repeat split; auto. now apply H3.
Qed.

Lemma listener_ok_read_stdout k l line : listener_ok k l -> listener_ok k (read_stdout line l).
Proof.
  intros Hok. unfold read_stdout.
  destruct (process l) as [pr|] eqn:E; [|exact Hok].
  destruct line; [exact Hok|].
  destruct Hok as (H1 & H2 & _). split; [exact H1 | split; [exact H2|]].
  cbn [process set_stdout_queue]. rewrite E. discriminate.
Qed.

Lemma listener_ok_read_stderr k l line : listener_ok k l -> listener_ok k (read_stderr line l).
Proof.
  intros Hok. unfold read_stderr.
  destruct (process l) as [pr|] eqn:E; [|exact Hok].
  destruct line; [exact Hok|].
  destruct Hok as (H1 & H2 & _). split; [exact H1 | split; [exact H2|]].
  cbn [process set_stderr_queue]. rewrite E. discriminate.
Qed.

Lemma capture_ok a s : entries_ok (connections s) -> entries_ok (connections (capture a s)).
Proof.
  intros H. destruct a as [[q f] line]. unfold capture.
  destruct (Dict.get q (connections s)) as [l|] eqn:E; [|exact H].
  cbn [connections set_connections]. apply entries_ok_set; [exact H|].
  pose proof (entries_ok_get _ _ _ H E).
  destruct f; [now apply listener_ok_read_stdout | now apply listener_ok_read_stderr].
Qed.

Lemma captures_ok bg s : entries_ok (connections s) -> entries_ok (connections (captures bg s)).
Proof.
  unfold captures. revert s. induction bg as [|a bg IH]; intros s H; [exact H|].
  cbn [fold_left]. now apply IH, capture_ok.
Qed.

Lemma call_receive_ok p s :
  entries_ok (connections s) ->
  entries_ok (connections (state (call p receive_data s))).
Proof.
  intros H. unfold call. destruct (Dict.get p (connections s)) as [l|] eqn:E; [|exact H].
  rewrite receive_data_eq. cbn [state fst snd connections set_connections].
  apply entries_ok_set; [exact H|]. eapply listener_ok_drained, entries_ok_get; eauto.
Qed.

Lemma exec_ok o s : entries_ok (connections s) -> entries_ok (connections (exec o s)).
Proof.
  intros H. destruct o as [os p|p| |p|w bg command| | |a]; cbn [exec].
  - destruct (Dict.mem p (connections s)) eqn:E.
    + now rewrite (add_connection_dup os p s E).
    + rewrite (add_connection_new os p s E). cbn [state fst snd set_connections connections].
      apply Forall_app. split; [exact H|]. constructor; [|constructor].
      apply listener_ok_start.
  - destruct (Dict.get p (connections s)) as [l|] eqn:E.
    + rewrite (remove_connection_present p s l E).
      cbn [state fst snd set_connections connections]. now apply entries_ok_del.
    + rewrite (remove_connection_absent p s); [exact H|]. unfold Dict.mem. now rewrite E.
  - exact H.
  - rewrite select_connection_eq. now destruct (Dict.mem p (connections s)).
  - destruct (selected_in_connections s) as [p|] eqn:Hsel.
    + destruct (selected_in_connections_Some s p Hsel) as [_ Hm].
      destruct (mem_get _ _ Hm) as [l Hl].
      destruct (send_data_cases w l command) as [Hr|E].
      * destruct (send_command_selected w bg command s p l Hsel Hl Hr) as (l1 & Hl1 & ->).
        cbn [state fst snd set_connections connections].
        pose proof (captures_ok bg s H) as H'.
        apply entries_ok_set; [exact H'|].
        eapply listener_ok_drained, entries_ok_get; eauto.
      * now rewrite (send_command_raises w bg command s p l Hsel Hl E).
    + now rewrite (send_command_unselected w bg command s Hsel).
  - destruct s as [[|[p l] rest] sel].
    + exact H.
    + rewrite stop_all_cons. cbn [state fst snd connections]. now inversion H.
  - destruct (show_selected_state s) as [->|[p ->]]; [exact H | now apply call_receive_ok].
  - now apply capture_ok.
Qed.

Lemma reachable_ok s : reachable s -> entries_ok (connections s).
Proof.
  induction 1 as [|s o _ IH]; [constructor | now apply exec_ok].
Qed.

(** The capture threads do not touch a listener without process. *)
Lemma captures_unset bg s p l :
  Dict.get p (connections s) = Some l -> process l = None ->
  Dict.get p (connections (captures bg s)) = Some l.
Proof.
  unfold captures. revert s. induction bg as [|[[q f] line] bg IH]; intros s Hl Hp; [exact Hl|].
  cbn [fold_left]. apply IH; [|exact Hp]. unfold capture.
  destruct (Dict.get q (connections s)) as [lq|] eqn:Eq; [|exact Hl].
  cbn [connections set_connections]. rewrite get_set.
  destruct (Z.eqb_spec p q) as [->|Hpq]; [|exact Hl].
  rewrite Hl in Eq. injection Eq as <-.
  unfold read_stdout, read_stderr. rewrite Hp. now destruct f.
Qed.

End Invariant.

(** X4.  In every manager the program can reach, no port is listed twice
    and every listener is kept under its own port. *)
Theorem reachable_keys (s : ConnectionManager) :
  Manager.reachable s ->
  NoDup (Dict.keys (connections s))
  /\ forall k l, Dict.get k (connections s) = Some l -> port l = k.
Proof.
  intros H. split; [now apply reachable_NoDup|].
  intros k l Hl. now destruct (entries_ok_get k l _ (reachable_ok s H) Hl).
Qed.

Lemma reachable_keys_witness :
  let s := Manager.execs [Manager.Add Listener.NotFound 9000;
                          Manager.Add (Listener.Spawned {| pid := 41 |}) 9001;
                          Manager.Add (Listener.Failed "busy") 9000] Manager.init in
  NoDup (Dict.keys (connections s)) /\ port (Listener.init 9000) = 9000.
Proof.
  cbv zeta.
  destruct (reachable_keys
              (Manager.execs [Manager.Add Listener.NotFound 9000;
                              Manager.Add (Listener.Spawned {| pid := 41 |}) 9001;
                              Manager.Add (Listener.Failed "busy") 9000] Manager.init)
              (reachable_execs _ _ Manager.reachable_init)) as [H1 H2].
  split; [exact H1 | exact (H2 9000 (Listener.init 9000) eq_refl)].
Defined.

(** X5.  Every listener that a reachable manager holds has its flag
    [running] set: [stop], which clears it, is only called on a listener
    that the same call removes. *)
Theorem reachable_running (s : ConnectionManager) (k : Z) (l : NetcatListener) :
  Manager.reachable s ->
  Dict.get k (connections s) = Some l ->
  running l = true.
Proof.
  intros H Hl. now destruct (entries_ok_get k l _ (reachable_ok s H) Hl) as (_ & ? & _).
Qed.

Lemma reachable_running_witness :
  let s := Manager.execs [Manager.Add (Listener.Spawned {| pid := 41 |}) 9000;
                          Manager.Add (Listener.Spawned {| pid := 42 |}) 9001;
                          Manager.Remove 9000] Manager.init in
  exists l, Dict.get 9001 (connections s) = Some l /\ running l = true.
Proof.
  eexists. split; [reflexivity|].
  exact (reachable_running
           (Manager.execs [Manager.Add (Listener.Spawned {| pid := 41 |}) 9000;
                           Manager.Add (Listener.Spawned {| pid := 42 |}) 9001;
                           Manager.Remove 9000] Manager.init)
           9001 _ (reachable_execs _ _ Manager.reachable_init) eq_refl).
Defined.

(** X6.  In a reachable manager a listener whose spawn failed has nothing
    queued, and the capture threads never enqueue for it.  So with such a
    listener selected, [send_command] writes nothing, sleeps, and returns
    the empty string, whatever arrives in the meantime. *)
Theorem send_command_unset_handle
    (w : Listener.pipe) (bg : list Manager.arrival) (command : string)
    (s : ConnectionManager) (p : Z) (l : NetcatListener) :
  Manager.reachable s ->
  selected_port s = Some p ->
  Dict.get p (connections s) = Some l ->
  process l = None ->
  stdout_queue l = [] /\ stderr_queue l = []
  /\ result (Manager.send_command w bg command s) = Ok (Some "")
  /\ events (Manager.send_command w bg command s) = [Sleep 500].
Proof.
  intros Hr Hs Hl Hp.
  destruct (entries_ok_get p l _ (reachable_ok s Hr) Hl) as (_ & _ & Hq).
  destruct (Hq Hp) as [Hout Herr]. split; [exact Hout | split; [exact Herr|]].
  assert (Hok : result (Listener.send_data w command l) = Ok tt)
    by now rewrite send_data_unset.
  destruct (send_command_selected w bg command s p l
              (selected_in_connections_intro s p l Hs Hl) Hl Hok) as (l1 & Hl1 & ->).
  rewrite (captures_unset bg s p l Hl Hp) in Hl1. injection Hl1 as <-.
  rewrite Hout, (send_data_unset w l command Hp). split; reflexivity.
Qed.

Lemma send_command_unset_handle_witness :
  let s := Manager.execs [Manager.Add Listener.NotFound 9000; Manager.Select 9000]
             Manager.init in
  result (Manager.send_command Listener.Exited [(9000, Stdout, "late" ++ Str.nl)] "id" s)
  = Ok (Some "")
  /\ events (Manager.send_command Listener.Exited [(9000, Stdout, "late" ++ Str.nl)] "id" s)
     = [Sleep 500].
Proof.
  exact (proj2 (proj2 (send_command_unset_handle Listener.Exited
                         [(9000, Stdout, "late" ++ Str.nl)] "id"
                         (Manager.execs [Manager.Add Listener.NotFound 9000;
                                         Manager.Select 9000] Manager.init)
                         9000 (Listener.init 9000)
                         (reachable_execs _ _ Manager.reachable_init)
                         eq_refl eq_refl eq_refl))).
Defined.

(** ** Adding, removing, listing and selecting *)

Section Registry2.
Import Listener Manager.
Implicit Types (s : ConnectionManager) (p k : Z) (l : NetcatListener).


Lemma del_missing {V} (d : Dict.t V) k : Dict.mem k d = false -> Dict.del k d = d.
Proof.
  unfold Dict.mem. induction d as [|[k0 v0] d IH]; cbn [Dict.del Dict.get]; [reflexivity|].
  destruct (Z.eqb_spec k k0); [discriminate|]. intros H. now rewrite IH.
Qed.


Lemma get_None_mem {V} (d : Dict.t V) k : Dict.get k d = None -> Dict.mem k d = false.
Proof. unfold Dict.mem. now intros ->. Qed.


(** The manager after [add(p)] on a port that is no key. *)
Lemma add_connection_new_state os p s :
  Dict.mem p (connections s) = false ->
  Dict.get p (connections (state (add_connection os p s)))
  = Some (state (start os (Listener.init p)))
  /\ Dict.del p (connections (state (add_connection os p s))) = connections s
  /\ Dict.keys (connections (state (add_connection os p s)))
     = (Dict.keys (connections s) ++ [p])%list
  /\ selected_port (state (add_connection os p s)) = selected_port s.
Proof.
  intros H. rewrite (add_connection_new os p s H).
  cbn [state fst snd set_connections connections selected_port].
  rewrite <- (set_new _ _ _ H). repeat split.
  - now rewrite get_set, Z.eqb_refl.
  - now rewrite del_set, del_missing.
  - now rewrite keys_set, H.
Qed.

Lemma stop_all_keeps s :
  connections (state (stop_all s)) = tl (connections s)
  /\ selected_port (state (stop_all s)) = selected_port s.
Proof.
  destruct s as [[|[p l] rest] sel]; [now split|]. now rewrite stop_all_cons.
Qed.

Lemma remove_connection_keeps p s :
  selected_port (state (remove_connection p s)) = selected_port s.
Proof.
  destruct (Dict.get p (connections s)) as [l|] eqn:E.
  - now rewrite (remove_connection_present p s l E).
  - now rewrite (remove_connection_absent p s (get_None_mem _ _ E)).
Qed.

Lemma add_connection_keeps os p s :
  selected_port (state (add_connection os p s)) = selected_port s.
Proof.
  destruct (Dict.mem p (connections s)) eqn:E.
  - now rewrite (add_connection_dup os p s E).
  - now rewrite (add_connection_new os p s E).
Qed.

(** What [show_selected] does with a port other than 0 selected that is a
    key. *)
Lemma show_selected_eq s p l :
  selected_port s = Some p -> p <> 0 -> Dict.get p (connections s) = Some l ->
  show_selected s
  = (Ok tt,
     set_connections (Dict.set p (set_stdout_queue [] l) (connections s)) s,
     match Str.strip (String.concat "" (stdout_queue l)) with
     | EmptyString => []
     | response =>
         [Print Stdout (Str.nl ++ "Received from port " ++ Str.of_int p ++ ":"
                        ++ Str.nl ++ response)]
     end).
Proof.
  intros Hs Hp Hl. unfold show_selected. unfold bind at 1. unfold get at 1.
  cbv beta iota. rewrite Hs.
  destruct (Z.eqb_spec p 0) as [->|_]; [contradiction|].
  unfold bind, call. rewrite Hl, receive_data_eq.
  now destruct (Str.strip (String.concat "" (stdout_queue l))).
Qed.

(** Adding the ports [ports] one after the other. *)
Lemma adds_keys (os : Z -> spawn) ports s :
  NoDup (Dict.keys (connections s) ++ ports) ->
  Dict.keys (connections (execs (map (fun p => Add (os p) p) ports) s))
  = (Dict.keys (connections s) ++ ports)%list.
Proof.
  unfold execs. revert s. induction ports as [|p ports IH]; intros s H.
  - cbn [map fold_left]. now rewrite app_nil_r.
  - cbn [map fold_left exec].
    assert (Hm : Dict.mem p (connections s) = false).
    { apply not_mem_In. intros Hin. apply NoDup_remove_2 in H. apply H.
      apply in_or_app. now left. }
    destruct (add_connection_new_state (os p) p s Hm) as (_ & _ & Hk & _).
    rewrite IH; rewrite Hk, <- app_assoc; [reflexivity | exact H].
Qed.


End Registry2.







(** X10.  [list_connections] returns the ports in the order they were
    added: after adding ports that differ from each other and from those
    listed, it returns the ports listed before followed by the new ones in
    the order of their addition, whatever the outcome of each spawn. *)
Theorem list_in_order_of_addition
    (os : Z -> Listener.spawn) (ports : list Z) (s : ConnectionManager) :
  NoDup (Dict.keys (connections s) ++ ports) ->
  result (Manager.list_connections
            (Manager.execs (map (fun p => Manager.Add (os p) p) ports) s))
  = Ok (Dict.keys (connections s) ++ ports)%list.
Proof.
  intros H. unfold Manager.list_connections, bind, get, ret. cbn [result fst].
  now rewrite (adds_keys os ports s H).
Qed.

Lemma list_in_order_of_addition_witness :
  result (Manager.list_connections
            (Manager.execs
               (map (fun p => Manager.Add Listener.NotFound p) [9001; 9000; 9002])
               Manager.init))
  = Ok [9001; 9000; 9002].
Proof.
  apply (list_in_order_of_addition (fun _ => Listener.NotFound) [9001; 9000; 9002]
           Manager.init).
  cbn. repeat constructor; cbn; intuition discriminate.
Defined.

(** X11.  No operation but a [select_connection] of a port that is a key
    changes [selected_port]: neither removing the selected port nor
    [stop_all] resets it. *)
Theorem only_select_changes_selection (o : Manager.op) (s : ConnectionManager) :
  selected_port (Manager.exec o s)
  = match o with
    | Manager.Select p =>
        if Dict.mem p (connections s) then Some p else selected_port s
    | _ => selected_port s
    end.
Proof.
  destruct o as [os p|p| |p|w bg command| | |a]; cbn [Manager.exec].
  - apply add_connection_keeps.
  - apply remove_connection_keeps.
  - reflexivity.
  - rewrite select_connection_eq. now destruct (Dict.mem p (connections s)).
  - apply send_command_keeps.
  - apply stop_all_keeps.
  - apply show_selected_keeps.
  - apply capture_keeps.
Qed.


(** X13.  With a port selected that is a key, [send_command] changes the
    listener of that port only: for every other port the manager holds
    afterwards what the capture threads left there during the sleep (or,
    when the write raised and there was no sleep, what it held before), and
    the ports listed are the same. *)
Theorem send_command_touches_selected_only
    (w : Listener.pipe) (bg : list Manager.arrival) (command : string)
    (s : ConnectionManager) (p q : Z) (l : NetcatListener) :
  selected_port s = Some p ->
  Dict.get p (connections s) = Some l ->
  q <> p ->
  let o := Manager.send_command w bg command s in
  Dict.get q (connections (state (Manager.send_command Listener.Reading bg command s)))
  = Dict.get q (connections (Manager.captures bg s))
  /\ Dict.get q (connections (state o))
     = Dict.get q (connections match result o with
                               | Ok _ => Manager.captures bg s
                               | Raise _ => s
                               end)
  /\ Dict.keys (connections (state o)) = Dict.keys (connections s).
Proof.
  intros Hs Hl Hq. cbv zeta.
  pose proof (selected_in_connections_intro s p l Hs Hl) as Hsel.
  assert (H : forall w',
             Dict.get q (connections (state (Manager.send_command w' bg command s)))
             = Dict.get q (connections
                             match result (Manager.send_command w' bg command s) with
                             | Ok _ => Manager.captures bg s
                             | Raise _ => s
                             end)).
  { intros w'. destruct (send_data_cases w' l command) as [Hr|E].
    - destruct (send_command_selected w' bg command s p l Hsel Hl Hr) as (l1 & Hl1 & ->).
      cbn [result state fst snd set_connections connections]. rewrite get_set.
      destruct (Z.eqb_spec q p); [contradiction | reflexivity].
    - now rewrite (send_command_raises w' bg command s p l Hsel Hl E). }
  split; [|split; [apply H | apply send_command_keeps]].
  rewrite H.
  assert (Hr : result (Listener.send_data Listener.Reading command l) = Ok tt).
  { destruct (process l) as [pr|] eqn:Hp;
      [now rewrite (send_data_set l pr) | now rewrite send_data_unset]. }
  now destruct (send_command_selected Listener.Reading bg command s p l Hsel Hl Hr)
    as (l1 & Hl1 & ->).
Qed.

Lemma send_command_touches_selected_only_witness :
  let s := Manager.execs [Manager.Add (Listener.Spawned {| pid := 41 |}) 9000;
                          Manager.Add (Listener.Spawned {| pid := 42 |}) 9001;
                          Manager.Capture (9001, Stdout, "kept" ++ Str.nl);
                          Manager.Select 9000] Manager.init in
  Dict.get 9001 (connections (state (Manager.send_command Listener.Reading [] "id" s)))
  = Dict.get 9001 (connections s).
Proof.
  refine (proj1 (send_command_touches_selected_only Listener.Reading [] "id"
                   (Manager.execs [Manager.Add (Listener.Spawned {| pid := 41 |}) 9000;
                                   Manager.Add (Listener.Spawned {| pid := 42 |}) 9001;
                                   Manager.Capture (9001, Stdout, "kept" ++ Str.nl);
                                   Manager.Select 9000] Manager.init)
                   9000 9001 _ eq_refl eq_refl _)).
  discriminate.
Defined.

(** X14.  A selected port that is no longer a key counts as no selection:
    [send_command] returns [None], prints [No connection selected.] and
    changes nothing. *)
Theorem send_command_dangling_selection
    (w : Listener.pipe) (bg : list Manager.arrival) (command : string)
    (s : ConnectionManager) (p : Z) :
  selected_port s = Some p ->
  Dict.mem p (connections s) = false ->
  Manager.send_command w bg command s
  = (Ok None, s, [Print Stdout "No connection selected."]).
Proof.
  intros Hs Hm. apply send_command_unselected.
  unfold Manager.selected_in_connections. now rewrite Hs, Hm.
Qed.

Lemma send_command_dangling_selection_witness :
  let s := Manager.execs [Manager.Add (Listener.Spawned {| pid := 41 |}) 9000;
                          Manager.Select 9000; Manager.Remove 9000] Manager.init in
  Manager.send_command Listener.Reading [] "id" s
  = (Ok None, s, [Print Stdout "No connection selected."]).
Proof.
  exact (send_command_dangling_selection Listener.Reading [] "id"
           (Manager.execs [Manager.Add (Listener.Spawned {| pid := 41 |}) 9000;
                           Manager.Select 9000; Manager.Remove 9000] Manager.init)
           9000 eq_refl eq_refl).
Defined.

(** X15.  With a port other than 0 selected that is a key, the head of the
    main loop drains the output of that listener and prints it under the
    line [Received from port p:], unless it is empty once trimmed; run again
    with nothing enqueued in between it prints nothing: no output is shown
    twice. *)
Theorem show_selected_once (s : ConnectionManager) (p : Z) (l : NetcatListener) :
  selected_port s = Some p ->
  p <> 0 ->
  Dict.get p (connections s) = Some l ->
  let response := Str.strip (String.concat "" (stdout_queue l)) in
  result (Manager.show_selected s) = Ok tt
  /\ events (Manager.show_selected s)
     = (if String.eqb response "" then []
        else [Print Stdout (Str.nl ++ "Received from port " ++ Str.of_int p ++ ":"
                            ++ Str.nl ++ response)])
  /\ Dict.get p (connections (state (Manager.show_selected s)))
     = Some (set_stdout_queue [] l)
  /\ Manager.show_selected (state (Manager.show_selected s))
     = (Ok tt, state (Manager.show_selected s), []).
Proof.
  intros Hs Hp Hl. cbv zeta. rewrite (show_selected_eq s p l Hs Hp Hl).
  cbn [result state events fst snd].
  assert (Hg : Dict.get p (connections
                 (set_connections (Dict.set p (set_stdout_queue [] l) (connections s)) s))
               = Some (set_stdout_queue [] l)).
  { cbn [connections set_connections]. now rewrite get_set, Z.eqb_refl. }
  repeat split.
  - now destruct (Str.strip (String.concat "" (stdout_queue l))).
  - exact Hg.
  - rewrite (show_selected_eq
               (set_connections (Dict.set p (set_stdout_queue [] l) (connections s)) s)
               p _ Hs Hp Hg).
    cbn [stdout_queue set_stdout_queue String.concat Str.strip Str.lstrip Str.rstrip].
    f_equal. f_equal. cbn [connections set_connections selected_port].
    unfold set_connections. cbn [connections selected_port]. f_equal.
    apply set_get_same. now rewrite get_set, Z.eqb_refl.
Qed.

Lemma show_selected_once_witness :
  let s := Manager.execs [Manager.Add (Listener.Spawned {| pid := 41 |}) 9000;
                          Manager.Select 9000;
                          Manager.Capture (9000, Stdout, "hello" ++ Str.nl)] Manager.init in
  events (Manager.show_selected s)
  = [Print Stdout (Str.nl ++ "Received from port 9000:" ++ Str.nl ++ "hello")]
  /\ events (Manager.show_selected (state (Manager.show_selected s))) = [].
Proof.
  cbv zeta.
  destruct (show_selected_once
              (Manager.execs [Manager.Add (Listener.Spawned {| pid := 41 |}) 9000;
                              Manager.Select 9000;
                              Manager.Capture (9000, Stdout, "hello" ++ Str.nl)] Manager.init)
              9000 _ eq_refl ltac:(discriminate) eq_refl) as (_ & H2 & _ & H4).
  split; [exact H2 | now rewrite H4].
Defined.

(** ** Words and numbers *)

From Stdlib Require DecimalPos.

Section Words.
Implicit Types (w a : string) (c : ascii).














End Words.

(** ** The commands of the main loop *)

Section Commands.
Import Listener Manager Main.
Implicit Types (s : ConnectionManager) (t : turn) (rest w : string).

Lemma startswith_app (pre rest : string) : Py.startswith pre (pre ++ rest) = true.
Proof.
  unfold Py.startswith. induction pre as [|c pre IH]; cbn [append String.prefix].
  - now destruct rest.
  - destruct (ascii_dec c c); [exact IH | contradiction].
Qed.

(** A method that returns, called by the main loop, which goes on. *)
Lemma lift_continue {A} (m : M ConnectionManager A) (a : A) (c : control) s :
  result (m s) = Ok a ->
  andthen (lift m) (fun _ => pure c) s = (inl c, state (m s), map Out (events (m s))).
Proof.
  unfold andthen, lift, pure. destruct (m s) as [[r s'] ev].
  cbn [result state events fst snd]. intros ->. now rewrite app_nil_r.
Qed.

Lemma add_connection_result os p s : result (add_connection os p s) = Ok tt.
Proof.
  destruct (Dict.mem p (connections s)) eqn:E.
  - now rewrite (add_connection_dup os p s E).
  - now rewrite (add_connection_new os p s E).
Qed.

Lemma remove_connection_result p s : result (remove_connection p s) = Ok tt.
Proof.
  destruct (Dict.get p (connections s)) as [l|] eqn:E.
  - now rewrite (remove_connection_present p s l E).
  - now rewrite (remove_connection_absent p s (get_None_mem _ _ E)).
Qed.

Lemma select_connection_result p s : result (select_connection p s) = Ok tt.
Proof. rewrite select_connection_eq. now destruct (Dict.mem p (connections s)). Qed.

(** [send_command] returns, or raises [BrokenPipeError]. *)
Lemma send_command_result (w : pipe) bg command s :
  (exists response, result (send_command w bg command s) = Ok response)
  \/ send_command w bg command s = (Raise BrokenPipeError, s, []).
Proof.
  destruct (selected_in_connections s) as [p|] eqn:Hsel.
  - destruct (selected_in_connections_Some s p Hsel) as [_ Hm].
    destruct (mem_get _ _ Hm) as [l Hl].
    destruct (send_data_cases w l command) as [Hr|E].
    + destruct (send_command_selected w bg command s p l Hsel Hl Hr) as (l1 & _ & ->).
      left. eexists. reflexivity.
    + right. now apply (send_command_raises w bg command s p l Hsel Hl E).
  - left. rewrite (send_command_unselected w bg command s Hsel). eexists. reflexivity.
Qed.

Lemma dispatch_add t rest s :
  dispatch t ("add " ++ rest) s = with_port rest s (add_connection (os t)).
Proof.
  unfold dispatch, with_port. rewrite startswith_app.
  change (Py.split ("add " ++ rest)) with ("add" :: Py.split rest).
  destruct (Py.split rest) as [|w [|w2 ws]]; try reflexivity.
  unfold andthen at 1. cbn [unpack2 pure snd]. unfold andthen at 1. unfold to_int.
  destruct (Py.int w) as [n|]; [|reflexivity].
  cbn [pure app]. rewrite (lift_continue _ tt Continue s (add_connection_result _ _ _)).
  reflexivity.
Qed.

Lemma dispatch_remove t rest s :
  dispatch t ("remove " ++ rest) s = with_port rest s remove_connection.
Proof.
  unfold dispatch, with_port.
  change (Py.startswith "add " ("remove " ++ rest)) with false. cbv iota.
  rewrite startswith_app.
  change (Py.split ("remove " ++ rest)) with ("remove" :: Py.split rest).
  destruct (Py.split rest) as [|w [|w2 ws]]; try reflexivity.
  unfold andthen at 1. cbn [unpack2 pure snd]. unfold andthen at 1. unfold to_int.
  destruct (Py.int w) as [n|]; [|reflexivity].
  cbn [pure app]. rewrite (lift_continue _ tt Continue s (remove_connection_result _ _)).
  reflexivity.
Qed.

Lemma dispatch_select t rest s :
  dispatch t ("select " ++ rest) s = with_port rest s select_connection.
Proof.
  unfold dispatch, with_port.
  change (Py.startswith "add " ("select " ++ rest)) with false. cbv iota.
  change (Py.startswith "remove " ("select " ++ rest)) with false. cbv iota.
  change (String.eqb ("select " ++ rest) "list") with false. cbv iota.
  rewrite startswith_app.
  change (Py.split ("select " ++ rest)) with ("select" :: Py.split rest).
  destruct (Py.split rest) as [|w [|w2 ws]]; try reflexivity.
  unfold andthen at 1. cbn [unpack2 pure snd]. unfold andthen at 1. unfold to_int.
  destruct (Py.int w) as [n|]; [|reflexivity].
  cbn [pure app]. rewrite (lift_continue _ tt Continue s (select_connection_result _ _)).
  reflexivity.
Qed.

End Commands.

(** X16.  A command that begins with [add ], [remove ] or [select ] calls the
    method of that name with the port that follows, if exactly one word
    follows and it is an [int] literal, and the loop goes on.  If more than
    one word follows, or a word that is no [int] literal, [ValueError] is
    raised before the manager is touched. *)
Theorem port_commands (t : Main.turn) (rest : string) (s : ConnectionManager) :
  Main.dispatch t ("add " ++ rest) s
  = with_port rest s (Manager.add_connection (Main.os t))
  /\ Main.dispatch t ("remove " ++ rest) s
     = with_port rest s Manager.remove_connection
  /\ Main.dispatch t ("select " ++ rest) s
     = with_port rest s Manager.select_connection.
Proof.
  split; [apply dispatch_add | split; [apply dispatch_remove | apply dispatch_select]].
Qed.

Section Typed.
Import Listener Manager Main.
Implicit Types (s : ConnectionManager) (t : turn) (x pre mid post : string).







End Typed.



Section Send.
Import Listener Manager Main.
Implicit Types (s : ConnectionManager) (t : turn) (rest : string).

Lemma split1_send rest :
  Py.split1 ("send " ++ rest)
  = match Str.lstrip rest with
    | EmptyString => ["send"]
    | cmd => ["send"; cmd]
    end.
Proof. reflexivity. Qed.

Lemma dispatch_send_unselected t rest s :
  selected_port s = None ->
  dispatch t ("send " ++ rest) s
  = (inl Continue, s,
     [Out (Print Stdout
             "No connection selected. Use 'select <port>' to select a connection.")]).
Proof.
  intros Hs. unfold dispatch.
  change (Py.startswith "add " ("send " ++ rest)) with false. cbv iota.
  change (Py.startswith "remove " ("send " ++ rest)) with false. cbv iota.
  change (String.eqb ("send " ++ rest) "list") with false. cbv iota.
  change (Py.startswith "select " ("send " ++ rest)) with false. cbv iota.
  rewrite startswith_app.
  unfold andthen at 1. unfold andthen at 1. unfold lift at 1. unfold get at 1.
  cbv beta iota. now rewrite Hs.
Qed.

Lemma dispatch_send_selected t rest s p :
  selected_port s = Some p ->
  String.eqb (Str.lstrip rest) "" = false ->
  dispatch t ("send " ++ rest) s
  = match result (send_command (stdin t) (bg t) (Str.lstrip rest) s) with
    | Ok response =>
        (inl Continue,
         state (send_command (stdin t) (bg t) (Str.lstrip rest) s),
         (map Out (events (send_command (stdin t) (bg t) (Str.lstrip rest) s))
          ++ [ Out (Print Stdout ("Sent to port " ++ Str.of_int p ++ ":"
                                  ++ Str.nl ++ Str.lstrip rest));
               Out (Print Stdout ("Received from port " ++ Str.of_int p ++ ":"
                                  ++ Str.nl ++ Py.format_opt response)) ])%list)
    | Raise e =>
        (inr (Raised e),
         state (send_command (stdin t) (bg t) (Str.lstrip rest) s),
         map Out (events (send_command (stdin t) (bg t) (Str.lstrip rest) s)))
    end.
Proof.
  intros Hs Hne.
  pose proof (proj2 (send_command_keeps (stdin t) (bg t) (Str.lstrip rest) s)) as Hk.
  rewrite Hs in Hk.
  unfold dispatch.
  change (Py.startswith "add " ("send " ++ rest)) with false. cbv iota.
  change (Py.startswith "remove " ("send " ++ rest)) with false. cbv iota.
  change (String.eqb ("send " ++ rest) "list") with false. cbv iota.
  change (Py.startswith "select " ("send " ++ rest)) with false. cbv iota.
  rewrite startswith_app, split1_send.
  unfold andthen at 1. unfold andthen at 1. unfold lift at 1. unfold get at 1.
  cbv beta iota. rewrite Hs.
  destruct (Str.lstrip rest) as [|c cmd] eqn:E; [discriminate|].
  unfold andthen at 1. cbn [unpack2 pure snd].
  unfold andthen at 1. unfold lift at 1.
  destruct (send_command (stdin t) (bg t) (String c cmd) s) as [[[response|e] s1] ev];
    cbn [result state events fst snd] in Hk |- *; [|reflexivity].
  unfold say, print, emit. unfold andthen, lift, get, pure. cbn [map app]. rewrite Hk.
  cbn [Py.format_opt_int]. now rewrite app_nil_r.
Qed.

End Send.

(** X18.  A command that begins with [send ] sends what follows the verb,
    without its leading white space and with the white space inside it as
    typed.  With no port selected nothing is sent and a hint is printed.
    With a port selected, [send_command] is called with that text.  If it
    returns, the loop prints the text under [Sent to port p:] and the
    response as [send_command] returned it under [Received from port p:],
    where the response [None] of a selection that is no key is printed as
    [None], and goes on.  If it raises, which it does with
    [BrokenPipeError] when the child process has exited, neither line is
    printed and the exception leaves the loop. *)
Theorem send_command_line
    (t : Main.turn) (rest : string) (s : ConnectionManager) :
  String.eqb (Str.lstrip rest) "" = false ->
  let cmd := Str.lstrip rest in
  let o := Manager.send_command (Main.stdin t) (Main.bg t) cmd s in
  match selected_port s with
  | None =>
      Main.dispatch t ("send " ++ rest) s
      = (inl Main.Continue, s,
         [Main.Out (Print Stdout
            "No connection selected. Use 'select <port>' to select a connection.")])
  | Some p =>
      Main.dispatch t ("send " ++ rest) s
      = match result o with
        | Ok response =>
            (inl Main.Continue, state o,
             (map Main.Out (events o)
              ++ [ Main.Out (Print Stdout ("Sent to port " ++ Str.of_int p ++ ":"
                                           ++ Str.nl ++ cmd));
                   Main.Out (Print Stdout ("Received from port " ++ Str.of_int p ++ ":"
                                           ++ Str.nl ++ Py.format_opt response)) ])%list)
        | Raise e => (inr (Main.Raised e), state o, map Main.Out (events o))
        end
      /\ ((exists response, result o = Ok response)
          \/ o = (Raise BrokenPipeError, s, []))
  end.
Proof.
  intros Hne. cbv zeta. destruct (selected_port s) as [p|] eqn:Hs.
  - split; [now apply dispatch_send_selected | apply send_command_result].
  - now apply dispatch_send_unselected.
Qed.

Lemma send_command_line_witness :
  let s := Manager.execs [Manager.Add (Listener.Spawned {| pid := 41 |}) 9000;
                          Manager.Select 9000] Manager.init in
  let t := {| Main.typed := Main.Line "send   echo  hi"; Main.arrived := [];
              Main.os := Listener.NotFound; Main.stdin := Listener.Reading;
              Main.bg := [(9000, Stdout, "hi" ++ Str.nl)] |} in
  let t' := {| Main.typed := Main.Line "send   echo  hi"; Main.arrived := [];
               Main.os := Listener.NotFound; Main.stdin := Listener.Exited;
               Main.bg := [(9000, Stdout, "hi" ++ Str.nl)] |} in
  Main.outcome (Main.dispatch t "send   echo  hi" s) = inl Main.Continue
  /\ Main.trace (Main.dispatch t "send   echo  hi" s)
     = [ Main.Out (StdinWrite {| pid := 41 |} ("echo  hi" ++ Str.nl));
         Main.Out (StdinFlush {| pid := 41 |});
         Main.Out (Sleep 500);
         Main.Out (Print Stdout ("Sent to port 9000:" ++ Str.nl ++ "echo  hi"));
         Main.Out (Print Stdout ("Received from port 9000:" ++ Str.nl ++ "hi")) ]
  /\ Main.dispatch t' "send   echo  hi" s = (inr (Main.Raised BrokenPipeError), s, []).
Proof.
  cbv zeta.
  pose proof (send_command_line
                {| Main.typed := Main.Line "send   echo  hi"; Main.arrived := [];
                   Main.os := Listener.NotFound; Main.stdin := Listener.Reading;
                   Main.bg := [(9000, Stdout, "hi" ++ Str.nl)] |}
                "  echo  hi"
                (Manager.execs [Manager.Add (Listener.Spawned {| pid := 41 |}) 9000;
                                Manager.Select 9000] Manager.init)
                eq_refl) as H.
  pose proof (send_command_line
                {| Main.typed := Main.Line "send   echo  hi"; Main.arrived := [];
                   Main.os := Listener.NotFound; Main.stdin := Listener.Exited;
                   Main.bg := [(9000, Stdout, "hi" ++ Str.nl)] |}
                "  echo  hi"
                (Manager.execs [Manager.Add (Listener.Spawned {| pid := 41 |}) 9000;
                                Manager.Select 9000] Manager.init)
                eq_refl) as H'.
  cbv zeta in H, H'. destruct H as [H _]. destruct H' as [H' _].
  change ("send " ++ "  echo  hi") with "send   echo  hi" in H, H'.
  rewrite H, H'. repeat split.
Defined.

(** ** The end of the program *)

Section Exit.
Import Listener Manager Main.
Local Open Scope main_scope.
Implicit Types (s : ConnectionManager) (t : turn) (turns : list turn).

Lemma finally_nil {A} (r : A + error) sel :
  finally r {| connections := []; selected_port := sel |}
  = (r, {| connections := []; selected_port := sel |}, []).
Proof. now destruct r. Qed.

Lemma finally_cons {A} (r : A + error) p l rest sel :
  finally r {| connections := (p, l) :: rest; selected_port := sel |}
  = (inr (Raised (RuntimeError "dictionary changed size during iteration")),
     {| connections := rest; selected_port := sel |},
     map Out (events (stop l))).
Proof.
  unfold finally, andthen, lift. now rewrite stop_all_cons.
Qed.

Lemma andthen_ext {A B} (m : P A) (f g : A -> P B) s :
  (forall a s', f a s' = g a s') -> andthen m f s = andthen m g s.
Proof.
  intros H. unfold andthen. destruct (m s) as [[[a|e] s1] tr]; [|reflexivity].
  now rewrite H.
Qed.

Lemma loop_cons t turns :
  loop (t :: turns)
  = (before_prompt ;;
     prompt (COLOR_GREEN ++ "Enter command: " ++ COLOR_RESET) ;;
     lift (modify (captures (arrived t))) ;;
     match typed t with
     | EOF => throw EOFError
     | Interrupt => throw KeyboardInterrupt
     | Line text =>
         c <- dispatch t (Str.strip text) ;;
         match c with
         | Continue => loop turns
         | Break => pure Done
         end
     end).
Proof. reflexivity. Qed.

Lemma dispatch_stop t s :
  dispatch t "stop" s = (lift stop_all ;; pure Break) s.
Proof. reflexivity. Qed.

(** The loop does not look at the turns after one that ends it. *)
Lemma loop_ends t turns turns' s :
  ends_loop t = true -> loop (t :: turns) s = loop (t :: turns') s.
Proof.
  unfold ends_loop. intros H. rewrite !loop_cons.
  do 3 (apply andthen_ext; intros ? ?).
  destruct (typed t) as [text| |]; [|reflexivity|reflexivity].
  apply String.eqb_eq in H. rewrite H.
  unfold andthen. rewrite !dispatch_stop.
  unfold andthen, lift, pure.
  match goal with
  | |- context [stop_all ?x] => now destruct (stop_all x) as [[[[]|e] s1] ev]
  end.
Qed.

Lemma loop_prefix pre t turns turns' s :
  ends_loop t = true -> loop (pre ++ t :: turns) s = loop (pre ++ t :: turns') s.
Proof.
  intros H. revert s. induction pre as [|t0 pre IH]; intros s.
  - now apply loop_ends.
  - cbn [app]. rewrite !loop_cons.
    do 3 (apply andthen_ext; intros ? ?).
    destruct (typed t0) as [text| |]; [|reflexivity|reflexivity].
    apply andthen_ext. intros [|] s1; [apply IH | reflexivity].
Qed.

End Exit.

(** X19.  How the program ends.  While [input] waits, neither the handler
    nor the [finally] clause has run.  Else the [finally] clause calls
    [stop_all] once: it stops the oldest connection that was left when the
    loop ended, and no other.  If a connection was left the program ends
    with [RuntimeError], whatever ended the loop; if none was left it ends
    the way the loop ended, except that [KeyboardInterrupt] is caught. *)
Theorem main_exit (turns : list Main.turn) :
  let left := connections (Main.manager (Main.body turns)) in
  match Main.outcome (Main.body turns) with
  | inl Main.Waiting => Main.main turns = Main.body turns
  | ended =>
      connections (Main.manager (Main.main turns)) = tl left
      /\ selected_port (Main.manager (Main.main turns))
         = selected_port (Main.manager (Main.body turns))
      /\ Main.outcome (Main.main turns)
         = match left with
           | _ :: _ =>
               inr (Main.Raised (RuntimeError "dictionary changed size during iteration"))
           | [] =>
               match ended with
               | inr Main.KeyboardInterrupt => inl Main.Done
               | _ => ended
               end
           end
  end.
Proof.
  cbv zeta. unfold Main.main.
  destruct (Main.body turns) as [[r [[|[p l] rest] sel]] tr];
    cbn [Main.outcome Main.manager fst snd connections selected_port tl];
    destruct r as [[|]|[e| | |]];
    rewrite ?finally_nil, ?finally_cons; try reflexivity;
    cbn [Main.outcome Main.manager fst snd connections selected_port];
    try (repeat split; reflexivity).
  unfold Main.andthen, Main.say, Main.lift, print, emit. cbn [map].
  rewrite finally_cons. repeat split.
Qed.

(** X20.  Nothing is read after the loop has ended: a run does not depend on
    the turns that follow the command [stop] (with or without white space
    around it, and whether [stop_all] raised or not), the end of the input
    or an interrupt. *)
Theorem nothing_read_after_end
    (pre : list Main.turn) (t : Main.turn) (turns : list Main.turn) :
  Main.ends_loop t = true ->
  Main.main (pre ++ t :: turns) = Main.main (pre ++ [t]).
Proof.
  intros H. unfold Main.main, Main.body.
  replace ((Main.andthen Main.print_help (fun _ => Main.loop (pre ++ t :: turns)))
             Manager.init)
    with ((Main.andthen Main.print_help (fun _ => Main.loop (pre ++ [t]))) Manager.init);
    [reflexivity|].
  apply andthen_ext. intros _ s. now apply loop_prefix.
Qed.

Lemma nothing_read_after_end_witness :
  let stop := {| Main.typed := Main.Line " stop "; Main.arrived := [];
                 Main.os := Listener.NotFound; Main.stdin := Listener.Reading;
                 Main.bg := [] |} in
  let add := {| Main.typed := Main.Line "add 9000"; Main.arrived := [];
                Main.os := Listener.Spawned {| pid := 41 |};
               Main.stdin := Listener.Reading; Main.bg := [] |} in
  Main.main ([add] ++ stop :: [add; add]) = Main.main ([add] ++ [stop]).
Proof.
  exact (nothing_read_after_end
           [{| Main.typed := Main.Line "add 9000"; Main.arrived := [];
               Main.os := Listener.Spawned {| pid := 41 |};
               Main.stdin := Listener.Reading; Main.bg := [] |}]
           {| Main.typed := Main.Line " stop "; Main.arrived := [];
              Main.os := Listener.NotFound; Main.stdin := Listener.Reading;
                 Main.bg := [] |}
           [{| Main.typed := Main.Line "add 9000"; Main.arrived := [];
               Main.os := Listener.Spawned {| pid := 41 |};
               Main.stdin := Listener.Reading; Main.bg := [] |};
            {| Main.typed := Main.Line "add 9000"; Main.arrived := [];
               Main.os := Listener.Spawned {| pid := 41 |};
               Main.stdin := Listener.Reading; Main.bg := [] |}]
           eq_refl).
Defined.

(** ** A spawn that succeeds *)

(** X21.  When the spawn succeeds during [add(p)] for a port [p] that is no
    key, the listener is registered as the newest connection with the
    process as its handle, nothing queued and its flag [running] set; the
    program has announced the start, spawned [nc -l -p p], printed the
    process id and started the two capture threads, in this order; the
    selection is untouched. *)
Theorem add_connection_spawned (pr : Popen) (p : Z) (s : ConnectionManager) :
  Dict.mem p (connections s) = false ->
  let o := Manager.add_connection (Listener.Spawned pr) p s in
  result o = Ok tt
  /\ connections (state o)
     = (connections s
        ++ [(p, {| port := p; process := Some pr; stdout_queue := [];
                   stderr_queue := []; running := true |})])%list
  /\ selected_port (state o) = selected_port s
  /\ events o
     = [ Print Stdout ("Starting netcat listener on port " ++ Str.of_int p ++ "...");
         Spawn ["nc"; "-l"; "-p"; Str.of_int p];
         Print Stdout ("Netcat listener started on port " ++ Str.of_int p
                       ++ " with PID " ++ Str.of_int (pid pr));
         ThreadStart Stdout p;
         ThreadStart Stderr p ].
Proof.
  intros H. cbv zeta. rewrite (add_connection_new _ p s H). repeat split.
Qed.

Lemma add_connection_spawned_witness :
  let o := Manager.add_connection (Listener.Spawned {| pid := 41 |}) 9000 Manager.init in
  result o = Ok tt
  /\ connections (state o)
     = [(9000, {| port := 9000; process := Some {| pid := 41 |}; stdout_queue := [];
                  stderr_queue := []; running := true |})]
  /\ selected_port (state o) = None
  /\ events o
     = [ Print Stdout "Starting netcat listener on port 9000...";
         Spawn ["nc"; "-l"; "-p"; "9000"];
         Print Stdout "Netcat listener started on port 9000 with PID 41";
         ThreadStart Stdout 9000;
         ThreadStart Stderr 9000 ].
Proof.
  exact (add_connection_spawned {| pid := 41 |} 9000 Manager.init eq_refl).
Defined.

(** ** The managers of a run *)

Section Runs.
Import Listener Manager Main.
Local Open Scope main_scope.
Implicit Types (s : ConnectionManager) (t : turn) (turns : list turn).

(** A piece of the main program that leads from reachable managers to
    reachable managers. *)
Let keeps {A} (m : P A) : Prop :=
  forall s, reachable s -> reachable (manager (m s)).

Lemma keeps_pure {A} (a : A) : keeps (pure a).
Proof. intros s H. exact H. Qed.

Lemma keeps_throw {A} (e : error) : keeps (@throw A e).
Proof. intros s H. exact H. Qed.

Lemma keeps_prompt text : keeps (prompt text).
Proof. intros s H. exact H. Qed.

Lemma keeps_andthen {A B} (m : P A) (f : A -> P B) :
  keeps m -> (forall a, keeps (f a)) -> keeps (andthen m f).
Proof.
  intros Hm Hf s H. specialize (Hm s H). unfold andthen.
  destruct (m s) as [[[a|e] s1] tr]; cbn [manager fst snd] in Hm |- *; [|exact Hm].
  specialize (Hf a s1 Hm). now destruct (f a s1) as [[r s2] tr2].
Qed.

(** A method of the manager whose effect on it is that of the operation
    [o]. *)
Lemma keeps_lift {A} (m : M ConnectionManager A) (o : op) :
  (forall s, state (m s) = exec o s) -> keeps (lift m).
Proof.
  intros E s H. unfold lift. specialize (E s).
  destruct (m s) as [[[a|e] s1] ev]; cbn [state manager fst snd] in E |- *;
    subst s1; now constructor.
Qed.

Lemma keeps_say line : keeps (say line).
Proof. intros s H. exact H. Qed.

Lemma keeps_get : keeps (lift get).
Proof. intros s H. exact H. Qed.

Lemma captures_execs bg s : captures bg s = execs (map Capture bg) s.
Proof.
  unfold captures, execs. revert s. induction bg as [|a bg IH]; intros s; [reflexivity|].
  cbn [map fold_left exec]. apply IH.
Qed.

Lemma keeps_captures bg : keeps (lift (modify (captures bg))).
Proof.
  intros s H. cbn [lift modify manager fst snd]. rewrite captures_execs.
  now apply reachable_execs.
Qed.

Lemma keeps_print_help : keeps print_help.
Proof. intros s H. exact H. Qed.

Lemma keeps_unpack2 ws : keeps (unpack2 ws).
Proof. intros s H. now destruct ws as [|a [|b [|c ws]]]. Qed.

Lemma keeps_to_int w : keeps (to_int w).
Proof. intros s H. unfold to_int. now destruct (Py.int w). Qed.

Lemma keeps_dispatch t command : keeps (dispatch t command).
Proof.
  unfold dispatch.
  repeat match goal with
         | |- keeps (if ?b then _ else _) => destruct b
         | |- keeps (andthen _ _) => apply keeps_andthen; [|intros ?]
         | |- keeps (match ?x with Some _ => _ | None => _ end) => destruct x
         | |- keeps (match ?x with [] => _ | _ :: _ => _ end) => destruct x
         | |- keeps (pure _) => apply keeps_pure
         | |- keeps (say _) => apply keeps_say
         | |- keeps (lift get) => apply keeps_get
         | |- keeps (unpack2 _) => apply keeps_unpack2
         | |- keeps (to_int _) => apply keeps_to_int
         | |- keeps print_help => apply keeps_print_help
         | |- keeps (lift (add_connection ?os ?p)) =>
             apply (keeps_lift _ (Add os p)); reflexivity
         | |- keeps (lift (remove_connection ?p)) =>
             apply (keeps_lift _ (Remove p)); reflexivity
         | |- keeps (lift (select_connection ?p)) =>
             apply (keeps_lift _ (Select p)); reflexivity
         | |- keeps (lift list_connections) =>
             apply (keeps_lift _ ListConnections); reflexivity
         | |- keeps (lift (send_command ?w ?bg ?c)) =>
             apply (keeps_lift _ (SendCommand w bg c)); reflexivity
         | |- keeps (lift stop_all) =>
             apply (keeps_lift _ StopAll); reflexivity
         end.
Qed.

Lemma keeps_before_prompt : keeps before_prompt.
Proof.
  unfold before_prompt. apply keeps_andthen.
  - apply (keeps_lift _ ShowSelected). reflexivity.
  - intros _. apply keeps_andthen; [apply keeps_get|]. intros s0.
    destruct (selected_port s0) as [p|]; [|apply keeps_pure].
    destruct (p =? 0); [apply keeps_pure | apply keeps_say].
Qed.

Lemma keeps_loop turns : keeps (loop turns).
Proof.
  induction turns as [|t turns IH].
  - cbn [loop]. apply keeps_andthen; [apply keeps_before_prompt|]. intros _.
    apply keeps_andthen; [apply keeps_prompt|]. intros _. apply keeps_pure.
  - rewrite loop_cons.
    apply keeps_andthen; [apply keeps_before_prompt|]. intros _.
    apply keeps_andthen; [apply keeps_prompt|]. intros _.
    apply keeps_andthen; [apply keeps_captures|]. intros _.
    destruct (typed t); [|apply keeps_throw|apply keeps_throw].
    apply keeps_andthen; [apply keeps_dispatch|].
    intros [|]; [exact IH | apply keeps_pure].
Qed.

Lemma keeps_finally {A} (r : A + error) : keeps (finally r).
Proof.
  unfold finally. apply keeps_andthen.
  - apply (keeps_lift _ StopAll). reflexivity.
  - intros _. destruct r; [apply keeps_pure | apply keeps_throw].
Qed.

Lemma body_reachable turns : reachable (manager (body turns)).
Proof.
  unfold body. apply keeps_andthen; [apply keeps_print_help | | apply reachable_init].
  intros _. apply keeps_loop.
Qed.

Lemma main_reachable turns : reachable (manager (main turns)).
Proof.
  pose proof (body_reachable turns) as H. unfold main.
  destruct (body turns) as [[r s] tr]. cbn [manager fst snd] in H.
  destruct r as [[|]|e].
  - pose proof (keeps_finally (inl Done) s H) as Hf.
    now destruct (finally (inl Done) s) as [[r' s'] tr'].
  - exact H.
  - assert (Hi : reachable
                   (manager ((say (Str.nl ++ "Interrupt received, stopping all connections...") ;;
                              finally (inl Done)) s))).
    { apply keeps_andthen; [apply keeps_say | intros _; apply keeps_finally | exact H]. }
    pose proof (@keeps_finally status (inr e) s H) as Hf.
    destruct e as [e| | |];
      try (now destruct (finally _ s) as [[r' s'] tr']).
    now destruct ((say (Str.nl ++ "Interrupt received, stopping all connections...") ;;
                   finally (inl Done)) s) as [[r' s'] tr'].
Qed.

End Runs.

(** X22.  The manager that a run of the program ends with, or waits with, is
    one that the operations of the manager reach from the empty one.  So in
    every run no port is listed twice, each listener is kept under its own
    port with its flag [running] set, and a listener without process has
    nothing queued. *)
Theorem run_reachable (turns : list Main.turn) :
  let s := Main.manager (Main.main turns) in
  Manager.reachable s
  /\ NoDup (Dict.keys (connections s))
  /\ entries_ok (connections s).
Proof.
  cbv zeta. pose proof (main_reachable turns) as H.
  split; [exact H | split; [now apply reachable_NoDup | now apply reachable_ok]].
Qed.
